(** * scentswap: the CSV import script [import-via-mcp.py]

    A shallow embedding of the script's three stages - the CSV loader
    [load_csv_data], the batch builders [create_brands_batch] and
    [create_notes_batch] with the executor [execute_sql], and the
    orchestrator [main] - followed by the properties proved about them.

    Conventions of the embedding.

    - Text.  A Python [str] is a [string]; one [ascii] stands for one
      character.  The library functions [str.lower], [str.title],
      [str.strip], [str.split] and [str.replace] follow Python's rules on
      the ASCII repertoire; the 8-bit values above 127 are carried through
      as caseless characters that are not white space.  Where the case
      forms of a character beyond ASCII decide a statement, the functions
      are modelled a second time on code points (module [Unicode]), and
      the two models are proved to agree on ASCII text.
    - Exceptions.  [exn] holds instances of [Exception].  Asynchronous
      signals ([KeyboardInterrupt], [SystemExit]) are outside the model, so
      [except Exception] and a bare [except] both catch every [exn].
    - Effects.  Statements that mutate objects or print run in the monad
      [M S], a state monad with exceptions; a raised exception keeps the
      mutations made before it, as in Python.
    - Environment.  The file as seen through an encoding, and the outcome of
      every HTTP request, are inputs of the model. *)

From Stdlib Require Import String Ascii List Bool Arith ZArith QArith Lia.
From Stdlib Require Import DecimalString.
Import ListNotations.

Local Close Scope Q_scope.
Local Open Scope nat_scope.
Local Open Scope list_scope.
Local Open Scope string_scope.

(* ================================================================== *)
(** * Exceptions and the effect monad                                   *)
(* ================================================================== *)

Inductive exn_class : Type :=
| UnicodeDecodeError
| ValueError
| IndexError
| StopIteration
| CsvError
| OSError
| RequestException
| JSONDecodeError.

Inductive exn : Type := Exn (cls : exn_class) (msg : string).

Definition exn_cls (e : exn) : exn_class := let (c, _) := e in c.

(** [str(e)] *)
Definition exn_str (e : exn) : string := let (_, m) := e in m.

Definition is_UnicodeDecodeError (e : exn) : bool :=
  match exn_cls e with UnicodeDecodeError => true | _ => false end.

Inductive res (A : Type) : Type :=
| Ret (a : A)
| Raise (e : exn).
Arguments Ret {A} a.
Arguments Raise {A} e.

Definition M (S A : Type) : Type := S -> res A * S.

Definition ret {S A} (a : A) : M S A := fun s => (Ret a, s).

Definition raise {S A} (e : exn) : M S A := fun s => (Raise e, s).

Definition bind {S A B} (m : M S A) (k : A -> M S B) : M S B :=
  fun s => match m s with
           | (Ret a, s') => k a s'
           | (Raise e, s') => (Raise e, s')
           end.

Definition modify {S} (f : S -> S) : M S unit := fun s => (Ret tt, f s).

(** [try: body  except <classes accepted by catches> as e: handler e] *)
Definition try_except {S A} (body : M S A) (catches : exn -> bool)
           (handler : exn -> M S A) : M S A :=
  fun s => match body s with
           | (Ret a, s') => (Ret a, s')
           | (Raise e, s') => if catches e then handler e s' else (Raise e, s')
           end.

Definition catch_all (e : exn) : bool := true.

Declare Scope py_scope.
Delimit Scope py_scope with py.
Notation "x <- m ;; k" := (bind m (fun x => k))
  (at level 61, m at next level, right associativity) : py_scope.
Notation "m ;; k" := (bind m (fun _ => k))
  (at level 61, right associativity) : py_scope.
Local Open Scope py_scope.

(** [for x in xs: body x], stopping at the first exception. *)
Fixpoint for_each {S A} (xs : list A) (body : A -> M S unit) : M S unit :=
  match xs with
  | [] => ret tt
  | x :: xs' => body x ;; for_each xs' body
  end.

(** A computation without side effects that may raise. *)
Definition lift {S A} (r : res A) : M S A := fun s => (r, s).

(* ================================================================== *)
(** * Python [str] on the ASCII repertoire                              *)
(* ================================================================== *)

Definition code (c : ascii) : nat := nat_of_ascii c.

Definition between (lo hi n : nat) : bool :=
  Nat.leb lo n && Nat.leb n hi.

(** [str.isspace] on one character: TAB..CR, FS..US and the space. *)
Definition is_space (c : ascii) : bool :=
  between 9 13 (code c) || between 28 32 (code c).

Definition is_upper (c : ascii) : bool := between 65 90 (code c).
Definition is_lower (c : ascii) : bool := between 97 122 (code c).
Definition is_cased (c : ascii) : bool := is_upper c || is_lower c.
Definition is_digit (c : ascii) : bool := between 48 57 (code c).

Definition to_lower (c : ascii) : ascii :=
  if is_upper c then ascii_of_nat (code c + 32) else c.

(** Title case and upper case coincide on ASCII. *)
Definition to_title (c : ascii) : ascii :=
  if is_lower c then ascii_of_nat (code c - 32) else c.

(** [s.lower()] *)
Fixpoint lower (s : string) : string :=
  match s with
  | EmptyString => EmptyString
  | String c s' => String (to_lower c) (lower s')
  end.

(** [s.title()]: CPython walks the string with the flag
    [previous_is_cased]; a character after a cased one is lower-cased,
    any other is title-cased. *)
Fixpoint title_from (previous_is_cased : bool) (s : string) : string :=
  match s with
  | EmptyString => EmptyString
  | String c s' =>
      String (if previous_is_cased then to_lower c else to_title c)
             (title_from (is_cased c) s')
  end.

Definition title (s : string) : string := title_from false s.

(** [s.replace(old, new)] for a one-character [old]. *)
Fixpoint replace (old : ascii) (new : string) (s : string) : string :=
  match s with
  | EmptyString => EmptyString
  | String c s' =>
      if Ascii.eqb c old then new ++ replace old new s'
      else String c (replace old new s')
  end.

Fixpoint lstrip (s : string) : string :=
  match s with
  | EmptyString => EmptyString
  | String c s' => if is_space c then lstrip s' else s
  end.

Fixpoint rstrip (s : string) : string :=
  match s with
  | EmptyString => EmptyString
  | String c s' =>
      match rstrip s' with
      | EmptyString => if is_space c then EmptyString else String c EmptyString
      | r => String c r
      end
  end.

(** [s.strip()] *)
Definition strip (s : string) : string := rstrip (lstrip s).

(** [s.split(sep)] for a one-character [sep]: never an empty list. *)
Fixpoint split (sep : ascii) (s : string) : list string :=
  match s with
  | EmptyString => [EmptyString]
  | String c s' =>
      if Ascii.eqb c sep then EmptyString :: split sep s'
      else match split sep s' with
           | w :: ws => String c w :: ws
           | [] => [String c EmptyString]
           end
  end.

(** [sep.join(words)] *)
Definition join (sep : string) (words : list string) : string :=
  String.concat sep words.

(** Truth value of a [str]: non-empty. *)
Definition truthy (s : string) : bool :=
  match s with EmptyString => false | _ => true end.

(** [str(n)] for a non-negative [int]. *)
Definition str_of_nat (n : nat) : string :=
  NilZero.string_of_uint (Nat.to_uint n).

(** [str(z)] for an [int]. *)
Definition str_of_Z (z : Z) : string :=
  NilZero.string_of_int (Z.to_int z).

(* ================================================================== *)
(** * [int(s)] and [float(s)]                                           *)
(* ================================================================== *)

Definition digit_value (c : ascii) : Z := Z.of_nat (code c - 48).

(** Value of a run of decimal digits, most significant first. *)
Definition digits_value (ds : list ascii) : Z :=
  fold_left (fun acc d => (10 * acc + digit_value d)%Z) ds 0%Z.

(** Longest prefix of decimal digits, and the rest. *)
Fixpoint span_digits (cs : list ascii) : list ascii * list ascii :=
  match cs with
  | c :: cs' =>
      if is_digit c
      then let (ds, rest) := span_digits cs' in (c :: ds, rest)
      else ([], cs)
  | [] => ([], [])
  end.

(** Digits with single underscores allowed between two digits: the digit
    grouping of [int] literals.  [prev] is the previous character kind:
    [None] at the start, [Some true] after a digit, [Some false] after an
    underscore. *)
Fixpoint grouped_digits (prev : option bool) (cs : list ascii)
  : option (list ascii) :=
  match cs with
  | [] => match prev with Some true => Some [] | _ => None end
  | c :: cs' =>
      if is_digit c then
        option_map (cons c) (grouped_digits (Some true) cs')
      else if Ascii.eqb c "_" then
        match prev with
        | Some true => grouped_digits (Some false) cs'
        | _ => None
        end
      else None
  end.

Definition take_sign (cs : list ascii) : bool * list ascii :=
  match cs with
  | c :: cs' =>
      if Ascii.eqb c "-" then (true, cs')
      else if Ascii.eqb c "+" then (false, cs')
      else (false, cs)
  | [] => (false, [])
  end.

Definition invalid_literal (what s : string) : exn :=
  Exn ValueError (what ++ "'" ++ s ++ "'").

(** [int(s)] for a [str] in base ten: surrounding white space, an
    optional sign, then grouped digits.  The interpreter's cap on the
    number of digits is not modelled. *)
Definition py_int (s : string) : res Z :=
  let (neg, body) := take_sign (list_ascii_of_string (strip s)) in
  match grouped_digits None body with
  | Some ds => Ret (if neg then (- digits_value ds)%Z else digits_value ds)
  | None => Raise (invalid_literal "invalid literal for int() with base 10: " s)
  end.

(** A [float]: the exact rational a decimal literal denotes, or one of the
    special values.  The rounding to binary64 is not modelled. *)
Inductive pyfloat : Type :=
| Finite (q : Q)
| Infinite (negative : bool)
| NaN.

(** Underscores of a float literal: each one between two digits.  Returns
    the literal without them. *)
Fixpoint drop_underscores (prev : ascii) (cs : list ascii)
  : option (list ascii) :=
  match cs with
  | [] => if Ascii.eqb prev "_" then None else Some []
  | c :: cs' =>
      if Ascii.eqb c "_" then
        if is_digit prev then drop_underscores c cs' else None
      else if Ascii.eqb prev "_" && negb (is_digit c) then None
      else option_map (cons c) (drop_underscores c cs')
  end.

(** Optional exponent part [e[+-]digits] that must end the literal. *)
Definition exponent_part (cs : list ascii) : option Z :=
  match cs with
  | [] => Some 0%Z
  | c :: cs' =>
      if Ascii.eqb (to_lower c) "e" then
        let (neg, ds) := take_sign cs' in
        match span_digits ds with
        | (d :: ds', []) =>
            let v := digits_value (d :: ds') in
            Some (if neg then (- v)%Z else v)
        | _ => None
        end
      else None
  end.

(** mantissa * 10^exponent as a reduced fraction. *)
Definition scale10 (mantissa exponent : Z) : Q :=
  if (0 <=? exponent)%Z
  then Qred (Qmake (mantissa * 10 ^ exponent) 1)
  else Qred (Qmake mantissa (Z.to_pos (10 ^ (- exponent)))).

Definition decimal_part (cs : list ascii) : option Q :=
  let (ip, rest) := span_digits cs in
  let (fp, rest') :=
    match rest with
    | c :: r => if Ascii.eqb c "." then span_digits r else ([], rest)
    | [] => ([], [])
    end in
  match (ip ++ fp)%list with
  | [] => None
  | ds =>
      match exponent_part rest' with
      | Some e => Some (scale10 (digits_value ds) (e - Z.of_nat (List.length fp)))
      | None => None
      end
  end.

Definition special_part (neg : bool) (cs : list ascii) : option pyfloat :=
  let w := lower (string_of_list_ascii cs) in
  if String.eqb w "inf" || String.eqb w "infinity" then Some (Infinite neg)
  else if String.eqb w "nan" then Some NaN
  else None.

(** [float(s)] for a [str]. *)
Definition py_float (s : string) : res pyfloat :=
  let bad := Raise (invalid_literal "could not convert string to float: " s) in
  match drop_underscores "000" (list_ascii_of_string (strip s)) with
  | None => bad
  | Some cs =>
      let (neg, body) := take_sign cs in
      match decimal_part body with
      | Some q => Ret (Finite (if neg then Qred (Qopp q) else q))
      | None =>
          match special_part neg body with
          | Some f => Ret f
          | None => bad
          end
      end
  end.

(* ================================================================== *)
(** * The input file and [csv.reader]                                   *)
(* ================================================================== *)

Inductive encoding : Type := utf_8 | latin_1 | cp1252.

(** How the iteration over the lines of an open file ends. *)
Inductive ending : Type :=
| EOF
| Fails (e : exn).

(** What [open('fra_cleaned.csv', 'r', encoding=enc)] gives: the call
    fails, or the file yields lines (each with its line end, as text mode
    delivers them) until the end of the file or until reading fails.  The
    decoder works on blocks of bytes, so a [UnicodeDecodeError] can
    surface after the lines of earlier blocks have been delivered. *)
Inductive file_view : Type :=
| OpenFails (e : exn)
| Lines (ls : list string) (fin : ending).

Definition filesystem : Type := encoding -> file_view.

Definition delimiter : ascii := ";".
Definition quotechar : ascii := ascii_of_nat 34.
Definition LF : ascii := ascii_of_nat 10.
Definition CR : ascii := ascii_of_nat 13.
Definition field_limit : N := 131072.

(** States of the reader's automaton; the dialect has no escape
    character, so the two escape states cannot be entered. *)
Inductive csv_state : Type :=
| START_RECORD
| START_FIELD
| IN_FIELD
| IN_QUOTED_FIELD
| QUOTE_IN_QUOTED_FIELD
| EAT_CRNL.

Record parser : Type := mkParser {
  state : csv_state;
  field : string;
  fields : list string
}.

Definition parse_reset : parser := mkParser START_RECORD EmptyString [].

Definition parse_save_field (p : parser) (st : csv_state) : parser :=
  mkParser st EmptyString (fields p ++ [field p]).

Definition parse_add_char (p : parser) (st : csv_state) (c : ascii)
  : res parser :=
  if N.leb field_limit (N.of_nat (String.length (field p)))
  then Raise (Exn CsvError "field larger than field limit (131072)")
  else Ret (mkParser st (field p ++ String c EmptyString) (fields p)).

Definition set_state (p : parser) (st : csv_state) : parser :=
  mkParser st (field p) (fields p).

Definition is_newline (c : ascii) : bool := Ascii.eqb c LF || Ascii.eqb c CR.

(** One step of the automaton; [None] is the end-of-line mark that the
    reader feeds after the characters of every line.  Dialect: delimiter
    [;], the double quote as quote character, doubled quotes, minimal
    quoting, not strict. *)
Definition parse_process_char (p : parser) (c : option ascii) : res parser :=
  let start_field :=
    match c with
    | None => Ret (parse_save_field p START_RECORD)
    | Some ch =>
        if is_newline ch then Ret (parse_save_field p EAT_CRNL)
        else if Ascii.eqb ch quotechar then Ret (set_state p IN_QUOTED_FIELD)
        else if Ascii.eqb ch delimiter then Ret (parse_save_field p START_FIELD)
        else parse_add_char p IN_FIELD ch
    end in
  match state p with
  | START_RECORD =>
      match c with
      | None => Ret p
      | Some ch => if is_newline ch then Ret (set_state p EAT_CRNL)
                   else start_field
      end
  | START_FIELD => start_field
  | IN_FIELD =>
      match c with
      | None => Ret (parse_save_field p START_RECORD)
      | Some ch =>
          if is_newline ch then Ret (parse_save_field p EAT_CRNL)
          else if Ascii.eqb ch delimiter then Ret (parse_save_field p START_FIELD)
          else parse_add_char p IN_FIELD ch
      end
  | IN_QUOTED_FIELD =>
      match c with
      | None => Ret p
      | Some ch =>
          if Ascii.eqb ch quotechar then Ret (set_state p QUOTE_IN_QUOTED_FIELD)
          else parse_add_char p IN_QUOTED_FIELD ch
      end
  | QUOTE_IN_QUOTED_FIELD =>
      match c with
      | None => Ret (parse_save_field p START_RECORD)
      | Some ch =>
          if Ascii.eqb ch quotechar then parse_add_char p IN_QUOTED_FIELD ch
          else if Ascii.eqb ch delimiter then Ret (parse_save_field p START_FIELD)
          else if is_newline ch then Ret (parse_save_field p EAT_CRNL)
          else parse_add_char p IN_FIELD ch
      end
  | EAT_CRNL =>
      match c with
      | None => Ret (set_state p START_RECORD)
      | Some ch =>
          if is_newline ch then Ret p
          else Raise (Exn CsvError
                 "new-line character seen in unquoted field - do you need to open the file in universal-newline mode?")
      end
  end.

(** The characters of one line, then the end-of-line mark. *)
Fixpoint parse_line (p : parser) (line : string) : res parser :=
  match line with
  | EmptyString => parse_process_char p None
  | String c rest =>
      match parse_process_char p (Some c) with
      | Ret p' => parse_line p' rest
      | Raise e => Raise e
      end
  end.

Definition at_record_start (p : parser) : bool :=
  match state p with START_RECORD => true | _ => false end.

(** A record cut short by the end of the input is still delivered. *)
Definition pending (p : parser) : bool :=
  truthy (field p)
  || match state p with IN_QUOTED_FIELD => true | _ => false end.

(** The rows the reader delivers over the lines of a file, and how the
    iteration ends.  [p] is the automaton inside the current record: a
    quoted field can run over several lines. *)
Fixpoint read_rows (p : parser) (ls : list string) (fin : ending)
  : list (list string) * ending :=
  match ls with
  | [] =>
      match fin with
      | Fails e => ([], Fails e)
      | EOF => if pending p
               then ([fields (parse_save_field p START_RECORD)], EOF)
               else ([], EOF)
      end
  | l :: ls' =>
      match parse_line p l with
      | Raise e => ([], Fails e)
      | Ret p' =>
          if at_record_start p'
          then let (rows, fin') := read_rows parse_reset ls' fin in
               (fields p' :: rows, fin')
          else read_rows p' ls' fin
      end
  end.

(** [csv.reader(f, delimiter=';')] over the lines of [f]. *)
Definition csv_reader (ls : list string) (fin : ending)
  : list (list string) * ending :=
  read_rows parse_reset ls fin.

(* ================================================================== *)
(** * The loader [load_csv_data]                                        *)
(* ================================================================== *)

Record fragrance : Type := mkFragrance {
  url : string;
  name : string;
  brand : string;
  country : string;
  gender : string;
  rating : option pyfloat;
  year : option Z;
  top_notes : list string;
  middle_notes : list string;
  base_notes : list string
}.

(** The objects the loader mutates - the sets [brands] and [notes], the
    list [fragrances] - and the lines it prints.  A [set] is kept as a
    duplicate-free list in order of first insertion; the order in which
    Python iterates a set is unspecified, so nothing below relies on it. *)
Record acc : Type := mkAcc {
  brands : list string;
  notes : list string;
  fragrances : list fragrance;
  out : list string
}.

Definition acc_init : acc := mkAcc [] [] [] [].

(** [s.add(x)] *)
Fixpoint set_add (x : string) (s : list string) : list string :=
  match s with
  | [] => [x]
  | y :: s' => if String.eqb x y then s else y :: set_add x s'
  end.

(** [s.update(xs)] *)
Definition set_update (xs : list string) (s : list string) : list string :=
  fold_left (fun s' x => set_add x s') xs s.

Definition brands_add (b : string) : M acc unit :=
  modify (fun a => mkAcc (set_add b (brands a)) (notes a) (fragrances a) (out a)).

Definition notes_update (ns : list string) : M acc unit :=
  modify (fun a => mkAcc (brands a) (set_update ns (notes a)) (fragrances a) (out a)).

Definition fragrances_append (f : fragrance) : M acc unit :=
  modify (fun a => mkAcc (brands a) (notes a) (fragrances a ++ [f]) (out a)).

Definition print_acc (line : string) : M acc unit :=
  modify (fun a => mkAcc (brands a) (notes a) (fragrances a) (out a ++ [line])).

(** [row[k]] *)
Definition item (row : list string) (k : nat) : res string :=
  match nth_error row k with
  | Some x => Ret x
  | None => Raise (Exn IndexError "list index out of range")
  end.

(** [row[2].replace('-', ' ').title().replace(' ', '-')] *)
Definition normalize_brand (b : string) : string :=
  replace " " "-" (title (replace "-" " " b)).

(** [gender = row[4].lower()] and the two conditional assignments. *)
Definition normalize_gender (g : string) : string :=
  let gender := lower g in
  let gender := if String.eqb gender "women" then "female" else gender in
  let gender := if String.eqb gender "men" then "male" else gender in
  gender.

(** [[n.strip() for n in col.split(',')
      if n.strip() and n.strip().lower() != 'unknown']] *)
Definition parse_notes (col : string) : list string :=
  map strip
      (filter (fun n => truthy (strip n)
                        && negb (String.eqb (lower (strip n)) "unknown"))
              (split "," col)).

(** [float(row[5].replace(',', '.')) if row[5] else None] under a bare
    [except] that gives [None]. *)
Definition parse_rating (row : list string) : M acc (option pyfloat) :=
  try_except
    (c <- lift (item row 5) ;;
     if truthy c
     then c' <- lift (item row 5) ;;
          x <- lift (py_float (replace "," "." c')) ;; ret (Some x)
     else ret None)
    catch_all (fun _ => ret None).

(** [int(row[7]) if row[7] else None] under a bare [except]. *)
Definition parse_year (row : list string) : M acc (option Z) :=
  try_except
    (c <- lift (item row 7) ;;
     if truthy c
     then c' <- lift (item row 7) ;;
          x <- lift (py_int c') ;; ret (Some x)
     else ret None)
    catch_all (fun _ => ret None).

(** The body of [for i, row in enumerate(reader)]. *)
Definition row_body (i : nat) (row : list string) : M acc unit :=
  if Nat.ltb (List.length row) 11 then ret tt
  else
    url <- lift (item row 0) ;;
    name <- lift (item row 1) ;;
    b <- lift (item row 2) ;;
    let brand := normalize_brand b in
    country <- lift (item row 3) ;;
    g <- lift (item row 4) ;;
    let gender := normalize_gender g in
    rating <- parse_rating row ;;
    year <- parse_year row ;;
    c8 <- lift (item row 8) ;;
    let top_notes := parse_notes c8 in
    c9 <- lift (item row 9) ;;
    let middle_notes := parse_notes c9 in
    c10 <- lift (item row 10) ;;
    let base_notes := parse_notes c10 in
    brands_add brand ;;
    notes_update (top_notes ++ middle_notes ++ base_notes) ;;
    fragrances_append
      (mkFragrance url name brand country gender rating year
                   top_notes middle_notes base_notes) ;;
    if Nat.eqb (i mod 1000) 0
    then print_acc ("Processed " ++ str_of_nat i ++ " rows...")
    else ret tt.

(** [for i, row in enumerate(rows, start)] over rows already delivered. *)
Fixpoint for_rows (i : nat) (rows : list (list string)) : M acc unit :=
  match rows with
  | [] => ret tt
  | row :: rows' => row_body i row ;; for_rows (S i) rows'
  end.

(** The iteration ends: the reader stops, or the pending failure of the
    file surfaces. *)
Definition finish (fin : ending) : M acc unit :=
  match fin with
  | EOF => ret tt
  | Fails e => raise e
  end.

(** The body of one pass of [for encoding in encodings], up to [break]:
    open the file, skip the header, run the loop over the data rows. *)
Definition attempt (fs : filesystem) (enc : encoding) : M acc unit :=
  match fs enc with
  | OpenFails e => raise e
  | Lines ls fin =>
      match csv_reader ls fin with
      | ([], EOF) => raise (Exn StopIteration EmptyString)
      | ([], Fails e) => raise e
      | (header :: rows, fin') => for_rows 0 rows ;; finish fin'
      end
  end.

Definition encodings : list encoding := [utf_8; latin_1; cp1252].

(** [for encoding in encs]: a pass that ends normally leaves the loop
    ([break]); one that raises [UnicodeDecodeError] moves on to the next
    encoding ([continue]).  Nothing is reset in between. *)
Fixpoint try_encodings (fs : filesystem) (encs : list encoding) : M acc unit :=
  match encs with
  | [] => ret tt
  | enc :: encs' =>
      done <- try_except (attempt fs enc ;; ret true)
                         is_UnicodeDecodeError (fun _ => ret false) ;;
      if done then ret tt else try_encodings fs encs'
  end.

Definition loaded : Type := list string * list string * list fragrance.

(** [load_csv_data()]: the returned triple, [None] standing for
    [(None, None, None)], and the lines printed. *)
Definition load_csv_data (fs : filesystem) : option loaded * list string :=
  match try_except (try_encodings fs encodings ;; ret true)
                   catch_all
                   (fun e => print_acc ("Error loading CSV: " ++ exn_str e) ;;
                             ret false)
                   acc_init with
  | (Ret true, a) => (Some (brands a, notes a, fragrances a), out a)
  | (_, a) => (None, out a)
  end.

(* ================================================================== *)
(** * The batch builders and the executor [execute_sql]                 *)
(* ================================================================== *)

(** The module-level configuration. *)
Record config : Type := mkConfig {
  SUPABASE_URL : string;
  SUPABASE_ANON_KEY : string
}.

Record request : Type := mkRequest {
  req_url : string;
  req_headers : list (string * string);
  req_json : list (string * string)
}.

(** A decoded JSON document; [JNull] is Python's [None]. *)
#[warnings="-register-all"]
Inductive json : Type :=
| JNull
| JBool (b : bool)
| JNumber (literal : string)
| JString (s : string)
| JArray (items : list json)
| JObject (members : list (string * json)).

Definition is_None (v : json) : bool :=
  match v with JNull => true | _ => false end.

(** A response: its status, its body, and what [response.json()] does on
    that body - return the decoded document or raise. *)
Record response : Type := mkResponse {
  status_code : Z;
  text : string;
  json_body : res json
}.

(** What [requests.post] does: return a response or raise. *)
Inductive post_outcome : Type :=
| Responds (r : response)
| PostRaises (e : exn).

(** The remote side: the outcome of the k-th request of the run. *)
Definition network : Type := nat -> request -> post_outcome.

(** The script's surroundings: the lines printed, the requests sent so
    far, and the remote side. *)
Record world : Type := mkWorld {
  stdout : list string;
  sent : list request;
  net : network
}.

Definition print (line : string) : M world unit :=
  modify (fun w => mkWorld (stdout w ++ [line]) (sent w) (net w)).

(** [requests.post(url, headers=headers, json=data)] *)
Definition requests_post (u : string) (headers data : list (string * string))
  : M world response :=
  fun w =>
    let rq := mkRequest u headers data in
    let w' := mkWorld (stdout w) (sent w ++ [rq]) (net w) in
    match net w (List.length (sent w)) rq with
    | Responds r => (Ret r, w')
    | PostRaises e => (Raise e, w')
    end.

Definition nl : string := String LF EmptyString.

Definition execute_sql (cfg : config) (sql : string) : M world json :=
  let url : string := SUPABASE_URL cfg ++ "/rest/v1/rpc/exec_sql" in
  let headers :=
    [("apikey", SUPABASE_ANON_KEY cfg);
     ("Authorization", "Bearer " ++ SUPABASE_ANON_KEY cfg);
     ("Content-Type", "application/json")] in
  let url : string := SUPABASE_URL cfg ++ "/rest/v1/rpc/sql" in
  let data := [("query", sql)] in
  try_except
    (response <- requests_post url headers data ;;
     if Z.eqb (status_code response) 200
     then lift (json_body response)
     else print ("Error executing SQL: " ++ str_of_Z (status_code response)
                 ++ " - " ++ text response) ;;
          ret JNull)
    catch_all
    (fun e => print ("Exception executing SQL: " ++ exn_str e) ;; ret JNull).

(** [x.replace("'", "''")] *)
Definition escape_quotes (x : string) : string := replace "'" "''" x.

(** [f"('{x}')"] *)
Definition value_tuple (x : string) : string := "('" ++ x ++ "')".

(** The statement text of [create_brands_batch]. *)
Definition brands_sql (brands_batch : list string) : string :=
  let escaped_brands := map escape_quotes brands_batch in
  let sql_values := map value_tuple escaped_brands in
  nl ++ "    INSERT INTO brands (name) VALUES" ++ nl
     ++ "    " ++ join "," sql_values ++ nl
     ++ "    ON CONFLICT (name) DO NOTHING;" ++ nl
     ++ "    ".

(** The statement text of [create_notes_batch]. *)
Definition notes_sql (notes_batch : list string) : string :=
  let escaped_notes := map escape_quotes notes_batch in
  let sql_values := map value_tuple escaped_notes in
  nl ++ "    INSERT INTO notes (name) VALUES" ++ nl
     ++ "    " ++ join "," sql_values ++ nl
     ++ "    ON CONFLICT (name) DO NOTHING;" ++ nl
     ++ "    ".

Definition is_empty {A} (l : list A) : bool :=
  match l with [] => true | _ => false end.

Definition create_brands_batch (cfg : config) (brands_batch : list string)
  : M world bool :=
  if is_empty brands_batch then ret true
  else
    result <- execute_sql cfg (brands_sql brands_batch) ;;
    ret (negb (is_None result)).

Definition create_notes_batch (cfg : config) (notes_batch : list string)
  : M world bool :=
  if is_empty notes_batch then ret true
  else
    result <- execute_sql cfg (notes_sql notes_batch) ;;
    ret (negb (is_None result)).

(* ================================================================== *)
(** * The orchestrator [main]                                           *)
(* ================================================================== *)

Definition batch_size : nat := 50.

(** [range(start, stop, step)] for a positive [step]. *)
Definition range (start stop step : nat) : list nat :=
  map (fun k => start + k * step)
      (seq 0 ((stop - start + step - 1) / step)).

(** [l[i:j]] for [0 <= i <= j]. *)
Definition slice {A} (l : list A) (i j : nat) : list A :=
  firstn (j - i) (skipn i l).

Definition len {A} (l : list A) : string := str_of_nat (List.length l).

(** The loop that creates the brands, batch by batch. *)
Definition create_brands (cfg : config) (brands : list string) : M world unit :=
  for_each (range 0 (List.length brands) batch_size)
    (fun i =>
       let batch := slice brands i (i + batch_size) in
       print ("Creating brands batch " ++ str_of_nat (i / batch_size + 1) ++ "/"
              ++ str_of_nat ((List.length brands + batch_size - 1) / batch_size)) ;;
       ok <- create_brands_batch cfg batch ;;
       if negb ok
       then print ("Failed to create brands batch "
                   ++ str_of_nat (i / batch_size + 1))
       else ret tt).

(** The loop that creates the notes, batch by batch. *)
Definition create_notes (cfg : config) (notes : list string) : M world unit :=
  for_each (range 0 (List.length notes) batch_size)
    (fun i =>
       let batch := slice notes i (i + batch_size) in
       print ("Creating notes batch " ++ str_of_nat (i / batch_size + 1) ++ "/"
              ++ str_of_nat ((List.length notes + batch_size - 1) / batch_size)) ;;
       ok <- create_notes_batch cfg batch ;;
       if negb ok
       then print ("Failed to create notes batch "
                   ++ str_of_nat (i / batch_size + 1))
       else ret tt).

(** [main()] after the data is loaded and found non-empty. *)
Definition import (cfg : config) (data : loaded) : M world unit :=
  let '(brands, notes, fragrances) := data in
  print ("✅ Loaded " ++ len brands ++ " brands, " ++ len notes
         ++ " notes, " ++ len fragrances ++ " fragrances") ;;
  print (nl ++ "🏢 Creating " ++ len brands ++ " brands...") ;;
  create_brands cfg brands ;;
  print "✅ Brands creation completed" ;;
  print (nl ++ "🌸 Creating " ++ len notes ++ " notes...") ;;
  create_notes cfg notes ;;
  print "✅ Notes creation completed" ;;
  print "🎉 Import completed! Check Supabase to verify the data.".

(** [not brands], for the first component of the loader's result. *)
Definition no_brands (r : option loaded) : bool :=
  match r with
  | None => true
  | Some (brands, _, _) => is_empty brands
  end.

Definition main (cfg : config) (fs : filesystem) : M world unit :=
  print "🚀 Starting MCP-based CSV import..." ;;
  print "📄 Loading CSV data..." ;;
  let (r, printed) := load_csv_data fs in
  for_each printed print ;;
  match r with
  | Some data =>
      if no_brands r then print "❌ Failed to load data"
      else import cfg data
  | None => print "❌ Failed to load data"
  end.

(** The process environment: [os.getenv]. *)
Definition environ : Type := string -> option string.

(** [os.getenv(a) or os.getenv(b)] *)
Definition getenv_or (env : environ) (a b : string) : option string :=
  match env a with
  | Some v => if truthy v then Some v else env b
  | None => env b
  end.

Definition configured (v : option string) : bool :=
  match v with Some s => truthy s | None => false end.

(** The script from its first line: read the configuration, leave with
    status 1 when a value is missing, otherwise run [main].  The result is
    the exit status of the process and its surroundings at the end. *)
Definition script (env : environ) (fs : filesystem) (remote : network)
  : Z * world :=
  let w0 := mkWorld [] [] remote in
  let u := getenv_or env "SUPABASE_URL" "EXPO_PUBLIC_SUPABASE_URL" in
  let k := getenv_or env "SUPABASE_ANON_KEY" "EXPO_PUBLIC_SUPABASE_ANON_KEY" in
  match u, k with
  | Some u', Some k' =>
      if truthy u' && truthy k'
      then match main (mkConfig u' k') fs w0 with
           | (Ret _, w) => (0%Z, w)
           | (Raise _, w) => (1%Z, w)
           end
      else (1%Z, snd (print "❌ ERROR: Missing Supabase credentials. Please set SUPABASE_URL and SUPABASE_ANON_KEY in your .env file." w0))
  | _, _ =>
      (1%Z, snd (print "❌ ERROR: Missing Supabase credentials. Please set SUPABASE_URL and SUPABASE_ANON_KEY in your .env file." w0))
  end.

(* ================================================================== *)
(** * Vocabulary of the statements                                      *)
(* ================================================================== *)


(** Hyphens and spaces end a word of a brand. *)
Definition word_boundary (c : ascii) : bool :=
  Ascii.eqb c "-" || Ascii.eqb c " ".



(** The character [title_from] puts out for [c]. *)
Definition recase (previous_is_cased : bool) (c : ascii) : ascii :=
  if previous_is_cased then to_lower c else to_title c.




(** The rating and the year the loop body reads from a row: [None] for
    an empty column and for one that does not parse. *)
Definition rating_of (row : list string) : option pyfloat :=
  match nth_error row 5 with
  | Some c =>
      if truthy c
      then match py_float (replace "," "." c) with
           | Ret x => Some x
           | Raise _ => None
           end
      else None
  | None => None
  end.

Definition year_of (row : list string) : option Z :=
  match nth_error row 7 with
  | Some c =>
      if truthy c
      then match py_int c with Ret x => Some x | Raise _ => None end
      else None
  | None => None
  end.

Definition column (row : list string) (k : nat) : string :=
  nth k row EmptyString.

(** The record the loop body builds from a row; [None] for a row it
    skips. *)
Definition record_of (row : list string) : option fragrance :=
  if Nat.ltb (List.length row) 11 then None
  else Some (mkFragrance (column row 0) (column row 1)
                         (normalize_brand (column row 2)) (column row 3)
                         (normalize_gender (column row 4))
                         (rating_of row) (year_of row)
                         (parse_notes (column row 8))
                         (parse_notes (column row 9))
                         (parse_notes (column row 10))).

Definition all_notes (f : fragrance) : list string :=
  (top_notes f ++ middle_notes f ++ base_notes f)%list.

(** The records of the rows that are not skipped, in order. *)
Fixpoint records (rows : list (list string)) : list fragrance :=
  match rows with
  | [] => []
  | row :: rows' =>
      match record_of row with
      | Some f => f :: records rows'
      | None => records rows'
      end
  end.

(** The effect of the loop body on the loader's objects. *)
Definition row_effect (i : nat) (row : list string) (a : acc) : acc :=
  match record_of row with
  | None => a
  | Some f =>
      mkAcc (set_add (brand f) (brands a))
            (set_update (all_notes f) (notes a))
            (fragrances a ++ [f])
            (if Nat.eqb (i mod 1000) 0
             then out a ++ ["Processed " ++ str_of_nat i ++ " rows..."]
             else out a)
  end.

(** The effect of the loop over rows numbered from [i]. *)
Fixpoint rows_effect (i : nat) (rows : list (list string)) (a : acc) : acc :=
  match rows with
  | [] => a
  | row :: rows' => rows_effect (S i) rows' (row_effect i row a)
  end.

(** The string literals of a SQL statement as a lexer reads them: a
    literal runs from a quote to the next quote that is not doubled, and
    a doubled quote inside it stands for one quote.  [None] when the
    text ends inside a literal. *)
Inductive lex_state : Type :=
| Outside
| Inside (lit : string)
| AfterQuote (lit : string).

Fixpoint sql_literals_from (st : lex_state) (s : string)
  : option (list string) :=
  match s with
  | EmptyString =>
      match st with
      | Outside => Some []
      | Inside _ => None
      | AfterQuote lit => Some [lit]
      end
  | String c s' =>
      match st with
      | Outside =>
          if Ascii.eqb c "'" then sql_literals_from (Inside EmptyString) s'
          else sql_literals_from Outside s'
      | Inside lit =>
          if Ascii.eqb c "'" then sql_literals_from (AfterQuote lit) s'
          else sql_literals_from (Inside (lit ++ String c EmptyString)) s'
      | AfterQuote lit =>
          if Ascii.eqb c "'"
          then sql_literals_from (Inside (lit ++ "'")) s'
          else option_map (cons lit) (sql_literals_from Outside s')
      end
  end.

Definition sql_literals (s : string) : option (list string) :=
  sql_literals_from Outside s.

(** The batches the two loops of [main] cut a list into. *)
Definition batches {A} (l : list A) : list (list A) :=
  map (fun i => slice l i (i + batch_size))
      (range 0 (List.length l) batch_size).

(** The request [execute_sql] sends for a statement. *)
Definition sql_request (cfg : config) (sql : string) : request :=
  mkRequest (SUPABASE_URL cfg ++ "/rest/v1/rpc/sql")
            [("apikey", SUPABASE_ANON_KEY cfg);
             ("Authorization", ("Bearer " ++ SUPABASE_ANON_KEY cfg)%string);
             ("Content-Type", "application/json")]
            [("query", sql)].

(** Every quote of a string written twice. *)
Fixpoint double_quotes (x : string) : string :=
  match x with
  | EmptyString => EmptyString
  | String c x' =>
      if Ascii.eqb c "'"
      then String "'" (String "'" (double_quotes x'))
      else String c (double_quotes x')
  end.

(** Text without a quote. *)
Fixpoint plain (s : string) : bool :=
  match s with
  | EmptyString => true
  | String c s' => negb (Ascii.eqb c "'") && plain s'
  end.

(** The text of an insert statement for a table and its value tuples. *)
Definition insert_or_ignore (table : string) (tuples : list string) : string :=
  nl ++ "    INSERT INTO " ++ table ++ " (name) VALUES" ++ nl
     ++ "    " ++ join "," tuples ++ nl
     ++ "    ON CONFLICT (name) DO NOTHING;" ++ nl
     ++ "    ".

(** A computation that, from any world, returns normally, sends exactly
    the requests [rs] after those already sent, and leaves the remote
    side as it is. *)
Definition sends {A} (m : M world A) (rs : list request) : Prop :=
  forall w, exists v o,
    m w = (Ret v, mkWorld o (sent w ++ rs) (net w)).

(** The requests of a run of [main], given what the loader returned: one
    per batch of brands, then one per batch of notes; none when nothing
    was loaded. *)
Definition expected_requests (cfg : config) (r : option loaded)
  : list request :=
  match r with
  | Some (b, n, _) =>
      if is_empty b then []
      else (map (fun batch => sql_request cfg (brands_sql batch)) (batches b)
            ++ map (fun batch => sql_request cfg (notes_sql batch)) (batches n))%list
  | None => []
  end.

(* ================================================================== *)
(** * Python [str] beyond ASCII                                         *)
(* ================================================================== *)

(** The library functions of the brand normalisation on strings of
    Unicode code points, with the case data of the Unicode Character
    Database for Basic Latin and for two more characters: U+01F0, LATIN
    SMALL LETTER J WITH CARON, a cased letter whose title-case form is
    the pair U+004A U+030C, and U+030C, COMBINING CARON, which is not
    cased and has no case forms.  Other code points are outside this
    sample of the database. *)
Module Unicode.

Definition str : Type := list N.


Definition J_WITH_CARON : N := 496.
Definition COMBINING_CARON : N := 780.
Definition HYPHEN : N := 45.
Definition SPACE : N := 32.

Definition is_upper (c : N) : bool := N.leb 65 c && N.leb c 90.
Definition is_lower (c : N) : bool := N.leb 97 c && N.leb c 122.

Definition is_cased (c : N) : bool :=
  is_upper c || is_lower c || N.eqb c J_WITH_CARON.

(** Lower-case form of a character: one or more characters. *)
Definition to_lower (c : N) : list N :=
  if is_upper c then [(c + 32)%N] else [c].

(** Title-case form of a character: one or more characters. *)
Definition to_title (c : N) : list N :=
  if is_lower c then [(c - 32)%N]
  else if N.eqb c J_WITH_CARON then [74%N; COMBINING_CARON]
  else [c].

(** [s.title()], as [title_from] above, with case forms of any length. *)
Fixpoint title_from (previous_is_cased : bool) (s : str) : str :=
  match s with
  | [] => []
  | c :: s' =>
      ((if previous_is_cased then to_lower c else to_title c)
       ++ title_from (is_cased c) s')%list
  end.

Definition title (s : str) : str := title_from false s.

(** [s.replace(old, new)] for a one-character [old]. *)
Fixpoint replace (old : N) (new : str) (s : str) : str :=
  match s with
  | [] => []
  | c :: s' =>
      if N.eqb c old then (new ++ replace old new s')%list
      else c :: replace old new s'
  end.

(** [row[2].replace('-', ' ').title().replace(' ', '-')] *)
Definition normalize_brand (b : str) : str :=
  replace SPACE [HYPHEN] (title (replace HYPHEN [SPACE] b)).

End Unicode.



(* ================================================================== *)
(** * Sample inputs                                                     *)
(* ================================================================== *)

Definition header_line : string :=
  "url;Perfume;Brand;Country;Gender;Rating Value;Rating Count;Year;Top;Middle;Base"
  ++ nl.

Definition eau_sauvage_text : string :=
  "http://x;Eau Sauvage;christian-dior;FR;Men;4,5;;1966;Bergamot, Lemon;Unknown;Amber".

Definition eau_sauvage_row : list string :=
  ["http://x"; "Eau Sauvage"; "christian-dior"; "FR"; "Men"; "4,5";
   EmptyString; "1966"; "Bergamot, Lemon"; "Unknown"; "Amber"].

Definition eau_sauvage : fragrance :=
  mkFragrance "http://x" "Eau Sauvage" "Christian-Dior" "FR" "male"
              (Some (Finite (Qmake 9 2))) (Some 1966%Z)
              ["Bergamot"; "Lemon"] [] ["Amber"].

(** A file with the header and that one row, readable in every encoding. *)
Definition one_row_file : filesystem :=
  fun _ => Lines [header_line; eau_sauvage_text ++ nl] EOF.

(** The same file with a two-column line in front of the row. *)
Definition short_row_file : filesystem :=
  fun _ => Lines [header_line; "http://w;Torn" ++ nl; eau_sauvage_text ++ nl] EOF.

Definition demo_config : config := mkConfig "https://db.example" "anon-key".

(** A remote side that accepts every request, one that answers every
    request with status 500, and one that cannot be reached. *)
Definition remote_ok : network :=
  fun _ _ => Responds (mkResponse 200 "[1]" (Ret (JArray [JNumber "1"]))).

Definition remote_error : network :=
  fun _ _ => Responds (mkResponse 500 "boom"
                         (Raise (Exn JSONDecodeError "Expecting value"))).

Definition remote_down : network :=
  fun _ _ => PostRaises (Exn RequestException "connection refused").

(** The degree sign and the letter e with acute accent, as the characters
    U+00B0 and U+00E9, and as the two characters each that their UTF-8
    bytes become when the file is read as Latin-1. *)
Definition degree : string := String (ascii_of_nat 176) EmptyString.
Definition e_acute : string := String (ascii_of_nat 233) EmptyString.
Definition degree_misread : string :=
  String (ascii_of_nat 194) (String (ascii_of_nat 176) EmptyString).
Definition e_acute_misread : string :=
  String (ascii_of_nat 195) (String (ascii_of_nat 169) EmptyString).

Definition nord_line (deg e : string) : string :=
  "http://y;Nord;21" ++ deg ++ "-nord;FR;Women;4,1;;1921;Ros" ++ e
  ++ ";Unknown;Musk" ++ nl.


Definition cafe_line : string :=
  "http://z;Caf" ++ e_acute ++ ";cafe-x;FR;Unisex;3,9;;2001;Coffee;;" ++ nl.


(** A file in mixed encodings: its first rows are UTF-8, a later row is
    Latin-1.  Read as UTF-8 it yields the first rows and then fails to
    decode; read as Latin-1 it yields every row, the accented characters
    of the first rows misread. *)
Definition mixed_file : filesystem :=
  fun enc =>
    match enc with
    | utf_8 =>
        Lines [header_line; eau_sauvage_text ++ nl; nord_line degree e_acute]
              (Fails (Exn UnicodeDecodeError
                 "'utf-8' codec can't decode byte 0xe9: invalid continuation byte"))
    | _ =>
        Lines [header_line; eau_sauvage_text ++ nl;
               nord_line degree_misread e_acute_misread; cafe_line] EOF
    end.

(* ================================================================== *)
(** * Vocabulary of the further properties                              *)
(* ================================================================== *)

(** A row the loop body does not skip. *)
Definition is_long (row : list string) : bool :=
  negb (Nat.ltb (List.length row) 11).

(** Text without a space. *)
Fixpoint no_space (s : string) : bool :=
  match s with
  | EmptyString => true
  | String c s' => negb (Ascii.eqb c " ") && no_space s'
  end.

(** A computation that, from any world, returns normally, sends exactly
    the requests [rs], and prints [line] last. *)
Definition ends_with {A} (m : M world A) (rs : list request) (line : string)
  : Prop :=
  forall w, exists v o,
    m w = (Ret v, mkWorld (o ++ [line]) (sent w ++ rs) (net w)).


(** Whether a batch builder reports success for the outcome of its
    request: status 200 and a body that decodes to something other than
    null. *)
Definition accepted (o : post_outcome) : bool :=
  match o with
  | Responds r =>
      Z.eqb (status_code r) 200
      && match json_body r with
         | Ret j => negb (is_None j)
         | Raise _ => false
         end
  | PostRaises _ => false
  end.

Definition credentials_error : string :=
  "❌ ERROR: Missing Supabase credentials. Please set SUPABASE_URL and SUPABASE_ANON_KEY in your .env file.".

(** More sample inputs. *)
Definition missing_file : filesystem :=
  fun _ => OpenFails (Exn OSError "No such file or directory: 'fra_cleaned.csv'").

Definition header_only_file : filesystem :=
  fun _ => Lines [header_line; "http://w;Torn" ++ nl] EOF.

Definition env_empty : environ := fun _ => None.

(** The first name of the address is set but empty, the second is set;
    the key is set under its first name. *)
Definition env_fallback : environ :=
  fun k =>
    if String.eqb k "SUPABASE_URL" then Some EmptyString
    else if String.eqb k "EXPO_PUBLIC_SUPABASE_URL" then Some "https://db.example"
    else if String.eqb k "SUPABASE_ANON_KEY" then Some "anon-key"
    else None.

(** A remote side that answers 200 with the body null. *)
Definition remote_null : network :=
  fun _ _ => Responds (mkResponse 200 "null" (Ret JNull)).


(* ================================================================== *)
(** * Characters and strings                                            *)
(* ================================================================== *)

Ltac each_ascii c :=
  destruct c as [[] [] [] [] [] [] [] []]; vm_compute; try reflexivity;
  try discriminate; auto.



Lemma recase_boundary b c : word_boundary c = true -> recase b c = c.
Proof. destruct b; each_ascii c. Qed.














(* ================================================================== *)
(** * The loop over the rows                                            *)
(* ================================================================== *)

Lemma row_body_spec i row a : row_body i row a = (Ret tt, row_effect i row a).
Proof.
  unfold row_body, row_effect, record_of.
  destruct (Nat.ltb (List.length row) 11) eqn:Hlen; [reflexivity |].
  destruct row as [| c0 [| c1 [| c2 [| c3 [| c4 [| c5 [| c6 [| c7 [| c8
                  [| c9 [| c10 row]]]]]]]]]]]; try discriminate Hlen.
  unfold bind, lift, item, parse_rating, parse_year, try_except, bind, lift,
    item, rating_of, year_of, column, all_notes.
  cbn [nth_error nth top_notes middle_notes base_notes brand].
  destruct (truthy c5); destruct (truthy c7);
    cbn [ret catch_all];
    repeat match goal with
           | |- context [py_float ?x] => destruct (py_float x)
           | |- context [py_int ?x] => destruct (py_int x)
           end;
    cbn [ret catch_all brands_add notes_update fragrances_append modify
         brands notes fragrances out];
    destruct (Nat.eqb (i mod 1000) 0); reflexivity.
Qed.

Lemma for_rows_spec rows :
  forall i a, for_rows i rows a = (Ret tt, rows_effect i rows a).
Proof.
  induction rows as [| row rows IH]; intros i a; simpl.
  - reflexivity.
  - unfold bind. rewrite row_body_spec. apply IH.
Qed.

Lemma rows_effect_app rows1 :
  forall rows2 i a,
    rows_effect i (rows1 ++ rows2) a
    = rows_effect (i + List.length rows1) rows2 (rows_effect i rows1 a).
Proof.
  induction rows1 as [| r rows1 IH]; intros rows2 i a; simpl.
  - now rewrite Nat.add_0_r.
  - rewrite IH. f_equal. lia.
Qed.

Lemma rows_effect_fragrances rows :
  forall i a, fragrances (rows_effect i rows a) = (fragrances a ++ records rows)%list.
Proof.
  induction rows as [| r rows IH]; intros i a; simpl.
  - now rewrite app_nil_r.
  - rewrite IH. unfold row_effect. destruct (record_of r); simpl.
    + now rewrite <- app_assoc.
    + reflexivity.
Qed.

Lemma rows_effect_brands rows :
  forall i a,
    brands (rows_effect i rows a)
    = set_update (map brand (records rows)) (brands a).
Proof.
  induction rows as [| r rows IH]; intros i a; simpl.
  - reflexivity.
  - rewrite IH. unfold row_effect. destruct (record_of r); reflexivity.
Qed.

Lemma set_update_app xs ys s :
  set_update (xs ++ ys) s = set_update ys (set_update xs s).
Proof. unfold set_update. apply fold_left_app. Qed.

Lemma rows_effect_notes rows :
  forall i a,
    notes (rows_effect i rows a)
    = set_update (flat_map all_notes (records rows)) (notes a).
Proof.
  induction rows as [| r rows IH]; intros i a; simpl.
  - reflexivity.
  - rewrite IH. unfold row_effect. destruct (record_of r); simpl.
    + now rewrite set_update_app.
    + reflexivity.
Qed.

Lemma in_set_add x y s : In x (set_add y s) <-> x = y \/ In x s.
Proof.
  induction s as [| z s IH]; simpl.
  - intuition.
  - destruct (String.eqb y z) eqn:E.
    + apply String.eqb_eq in E. subst z. simpl. intuition.
    + simpl. intuition.
Qed.

Lemma in_set_update xs :
  forall s x, In x (set_update xs s) <-> In x xs \/ In x s.
Proof.
  induction xs as [| y xs IH]; intros s x.
  - simpl. intuition.
  - change (set_update (y :: xs) s) with (set_update xs (set_add y s)).
    rewrite IH, in_set_add. simpl. intuition.
Qed.

Lemma record_of_short row : List.length row < 11 -> record_of row = None.
Proof.
  intros H. unfold record_of.
  destruct (Nat.ltb_spec (List.length row) 11); [reflexivity | lia].
Qed.

Lemma records_app rows1 rows2 :
  records (rows1 ++ rows2) = (records rows1 ++ records rows2)%list.
Proof.
  induction rows1 as [| r rows1 IH]; simpl; [reflexivity |].
  destruct (record_of r); simpl; now rewrite IH.
Qed.

(* ================================================================== *)
(** * The loader                                                        *)
(* ================================================================== *)

Lemma attempt_spec fs enc a :
  attempt fs enc a
  = match fs enc with
    | OpenFails e => (Raise e, a)
    | Lines ls fin =>
        match csv_reader ls fin with
        | ([], EOF) => (Raise (Exn StopIteration EmptyString), a)
        | ([], Fails e) => (Raise e, a)
        | (_ :: rows, EOF) => (Ret tt, rows_effect 0 rows a)
        | (_ :: rows, Fails e) => (Raise e, rows_effect 0 rows a)
        end
    end.
Proof.
  unfold attempt. destruct (fs enc) as [e | ls fin]; [reflexivity |].
  destruct (csv_reader ls fin) as [[| h rows] [| e]]; try reflexivity;
    unfold bind; rewrite for_rows_spec; reflexivity.
Qed.

Lemma load_csv_data_spec fs :
  load_csv_data fs
  = match try_encodings fs encodings acc_init with
    | (Ret _, a) => (Some (brands a, notes a, fragrances a), out a)
    | (Raise e, a) =>
        (None, (out a ++ [("Error loading CSV: " ++ exn_str e)%string])%list)
    end.
Proof.
  unfold load_csv_data, try_except, bind.
  destruct (try_encodings fs encodings acc_init) as [[[] | e] a]; reflexivity.
Qed.

Section Invariants.

(** A property of the loader's objects that every pass of the loop body
    keeps. *)
Variable P : acc -> Prop.
Hypothesis row_keeps : forall i row a, P a -> P (row_effect i row a).

Lemma rows_effect_keeps rows : forall i a, P a -> P (rows_effect i rows a).
Proof.
  induction rows as [| r rows IH]; intros i a Ha; simpl; auto.
Qed.

Lemma attempt_keeps fs enc a : P a -> P (snd (attempt fs enc a)).
Proof.
  intros Ha. rewrite attempt_spec.
  destruct (fs enc) as [e | ls fin]; [exact Ha |].
  destruct (csv_reader ls fin) as [[| h rows] [| e]]; simpl; auto;
    now apply rows_effect_keeps.
Qed.

Lemma try_encodings_keeps fs encs :
  forall a, P a -> P (snd (try_encodings fs encs a)).
Proof.
  induction encs as [| enc encs IH]; intros a Ha; simpl; [exact Ha |].
  unfold bind at 1, try_except, bind.
  pose proof (attempt_keeps fs enc a Ha) as Hk.
  destruct (attempt fs enc a) as [[[] | e] a1]; simpl in Hk |- *.
  - exact Hk.
  - destruct (is_UnicodeDecodeError e); simpl; auto.
Qed.

Lemma load_csv_data_keeps fs b n f o :
  P acc_init ->
  load_csv_data fs = (Some (b, n, f), o) ->
  exists a, P a /\ brands a = b /\ notes a = n /\ fragrances a = f.
Proof.
  intros H0 H. rewrite load_csv_data_spec in H.
  pose proof (try_encodings_keeps fs encodings acc_init H0) as Hk.
  destruct (try_encodings fs encodings acc_init) as [[[] | e] a];
    simpl in Hk; [| discriminate].
  exists a. inversion H. auto.
Qed.

End Invariants.

(** C1.  The data row
    [http://x;Eau Sauvage;christian-dior;FR;Men;4,5;;1966;Bergamot, Lemon;Unknown;Amber]
    splits into its eleven columns; the loop body, at any row number and
    whatever was loaded before, appends the record with brand
    Christian-Dior, gender male, rating 4.5, year 1966, top notes Bergamot
    and Lemon, no middle note and base note Amber; and loading a file
    made of a header and that row returns exactly this record. *)
Theorem eau_sauvage_row_loads :
  csv_reader [eau_sauvage_text] EOF = ([eau_sauvage_row], EOF)
  /\ csv_reader [eau_sauvage_text ++ nl] EOF = ([eau_sauvage_row], EOF)
  /\ (forall i a, exists o,
         row_body i eau_sauvage_row a
         = (Ret tt,
            mkAcc (set_add "Christian-Dior" (brands a))
                  (set_update ["Bergamot"; "Lemon"; "Amber"] (notes a))
                  (fragrances a ++ [eau_sauvage]) o))
  /\ (exists b n f,
         fst (load_csv_data one_row_file) = Some (b, n, [f])
         /\ brand f = "Christian-Dior"
         /\ gender f = "male"
         /\ rating f = Some (Finite (Qmake 9 2))
         /\ year f = Some 1966%Z
         /\ top_notes f = ["Bergamot"; "Lemon"]
         /\ middle_notes f = []
         /\ base_notes f = ["Amber"]).
Proof.
  split; [vm_compute; reflexivity |].
  split; [vm_compute; reflexivity |].
  split.
  - intros i a. rewrite row_body_spec. unfold row_effect.
    replace (record_of eau_sauvage_row) with (Some eau_sauvage)
      by (vm_compute; reflexivity).
    eexists. reflexivity.
  - exists ["Christian-Dior"], ["Bergamot"; "Lemon"; "Amber"], eau_sauvage.
    repeat split; vm_compute; reflexivity.
Qed.


(* ================================================================== *)
(** * The brand normalisation beyond ASCII                              *)
(* ================================================================== *)





Lemma jcaron_normalized_twice :
  Unicode.normalize_brand [Unicode.J_WITH_CARON; 97%N]
  = [74%N; Unicode.COMBINING_CARON; 97%N]
  /\ Unicode.normalize_brand [74%N; Unicode.COMBINING_CARON; 97%N]
     = [74%N; Unicode.COMBINING_CARON; 65%N].
Proof. split; reflexivity. Qed.












Lemma try_encodings_cons fs enc encs a :
  try_encodings fs (enc :: encs) a
  = match attempt fs enc a with
    | (Ret _, a') => (Ret tt, a')
    | (Raise e, a') =>
        if is_UnicodeDecodeError e then try_encodings fs encs a'
        else (Raise e, a')
    end.
Proof.
  cbn [try_encodings]. unfold bind, try_except.
  destruct (attempt fs enc a) as [[[] | e] a']; cbn [ret]; [reflexivity |].
  destruct (is_UnicodeDecodeError e); reflexivity.
Qed.

Lemma try_encodings_first fs ls fin h rows a :
  fs utf_8 = Lines ls fin ->
  csv_reader ls fin = (h :: rows, EOF) ->
  try_encodings fs encodings a = (Ret tt, rows_effect 0 rows a).
Proof.
  intros Hfs Hcsv. unfold encodings.
  rewrite try_encodings_cons, attempt_spec, Hfs, Hcsv. reflexivity.
Qed.


Lemma rows_effect_skip i pre row post a :
  List.length row < 11 ->
  let a1 := rows_effect i (pre ++ row :: post) a in
  let a2 := rows_effect i (pre ++ post) a in
  brands a1 = brands a2 /\ notes a1 = notes a2
  /\ fragrances a1 = fragrances a2.
Proof.
  intros Hlen a1 a2. subst a1 a2.
  rewrite !rows_effect_brands, !rows_effect_notes, !rows_effect_fragrances.
  rewrite !records_app. cbn [records]. rewrite (record_of_short row Hlen).
  auto.
Qed.

(** C7.  A row with fewer than eleven columns, anywhere among the rows,
    leaves the loop running to its end without an exception, and the
    brand set, the note set and the fragrance list come out as if the row
    were absent; so loading a file that holds such a row returns the
    triple that loading the file without it returns. *)
Theorem short_rows_skipped :
  (forall i a pre row post,
      List.length row < 11 ->
      exists a',
        for_rows i (pre ++ row :: post) a = (Ret tt, a')
        /\ brands a' = brands (snd (for_rows i (pre ++ post) a))
        /\ notes a' = notes (snd (for_rows i (pre ++ post) a))
        /\ fragrances a' = fragrances (snd (for_rows i (pre ++ post) a)))
  /\ (forall fs1 fs2 ls1 ls2 h1 h2 pre row post,
         List.length row < 11 ->
         fs1 utf_8 = Lines ls1 EOF ->
         csv_reader ls1 EOF = (h1 :: pre ++ row :: post, EOF) ->
         fs2 utf_8 = Lines ls2 EOF ->
         csv_reader ls2 EOF = (h2 :: pre ++ post, EOF) ->
         exists b n f,
           fst (load_csv_data fs1) = Some (b, n, f)
           /\ fst (load_csv_data fs2) = Some (b, n, f)
           /\ f = records (pre ++ post)).
Proof.
  split.
  - intros i a pre row post Hlen. rewrite !for_rows_spec. cbn [snd].
    eexists. split; [reflexivity |].
    exact (rows_effect_skip i pre row post a Hlen).
  - intros fs1 fs2 ls1 ls2 h1 h2 pre row post Hlen Hfs1 Hcsv1 Hfs2 Hcsv2.
    rewrite !load_csv_data_spec.
    rewrite (try_encodings_first fs1 _ _ _ _ acc_init Hfs1 Hcsv1).
    rewrite (try_encodings_first fs2 _ _ _ _ acc_init Hfs2 Hcsv2).
    cbn [fst].
    destruct (rows_effect_skip 0 pre row post acc_init Hlen) as (Hb & Hn & Hf).
    cbv zeta in Hb, Hn, Hf. rewrite Hb, Hn, Hf.
    do 3 eexists. split; [reflexivity |]. split; [reflexivity |].
    now rewrite rows_effect_fragrances.
Qed.

Lemma short_rows_skipped_witness :
  (exists a',
      for_rows 0 ([] ++ ["http://w"; "Torn"] :: [eau_sauvage_row]) acc_init
      = (Ret tt, a')
      /\ fragrances a' = [eau_sauvage])
  /\ fst (load_csv_data short_row_file) = fst (load_csv_data one_row_file).
Proof.
  split.
  - destruct (proj1 short_rows_skipped 0 acc_init []
                    ["http://w"; "Torn"] [eau_sauvage_row])
      as (a' & Hrun & _ & _ & Hf); [simpl; lia |].
    exists a'. split; [exact Hrun | exact Hf].
  - destruct (proj2 short_rows_skipped short_row_file one_row_file
                    [header_line; ("http://w;Torn" ++ nl)%string;
                     (eau_sauvage_text ++ nl)%string]
                    [header_line; (eau_sauvage_text ++ nl)%string]
                    (hd [] (fst (csv_reader [header_line] EOF)))
                    (hd [] (fst (csv_reader [header_line] EOF)))
                    [] ["http://w"; "Torn"] [eau_sauvage_row])
      as (b & n & f & H1 & H2 & _);
      [simpl; lia | reflexivity | vm_compute; reflexivity
       | reflexivity | vm_compute; reflexivity |].
    now rewrite H1, H2.
Defined.



(* ================================================================== *)
(** * The statements of the batch builders                              *)
(* ================================================================== *)

Lemma string_app_assoc (a b c : string) : ((a ++ b) ++ c = a ++ b ++ c)%string.
Proof. induction a as [| x a IH]; simpl; [reflexivity | now rewrite IH]. Qed.

Lemma string_app_nil_r (a : string) : (a ++ EmptyString)%string = a.
Proof. induction a as [| x a IH]; simpl; [reflexivity | now rewrite IH]. Qed.

Lemma escape_quotes_doubles x : escape_quotes x = double_quotes x.
Proof.
  unfold escape_quotes. induction x as [| c x IH]; simpl; [reflexivity |].
  destruct (Ascii.eqb c "'"); simpl; now rewrite IH.
Qed.

(** Inside a literal, the escaped text of [x] and the closing quote and
    bracket read back as [x]. *)
Lemma lex_escaped x :
  forall lit rest,
    sql_literals_from (Inside lit)
      (escape_quotes x ++ String "'" (String ")" rest))
    = option_map (cons (lit ++ x)%string) (sql_literals_from Outside rest).
Proof.
  unfold escape_quotes.
  induction x as [| c x IH]; intros lit rest.
  - simpl. now rewrite string_app_nil_r.
  - cbn [replace]. destruct (Ascii.eqb c "'") eqn:Hc.
    + apply Ascii.eqb_eq in Hc. subst c.
      cbn [append sql_literals_from Ascii.eqb Bool.eqb].
      rewrite IH, string_app_assoc. reflexivity.
    + cbn [append sql_literals_from]. rewrite Hc.
      rewrite IH, string_app_assoc. reflexivity.
Qed.

Lemma lex_tuple x rest :
  sql_literals_from Outside (value_tuple (escape_quotes x) ++ rest)
  = option_map (cons x) (sql_literals_from Outside rest).
Proof.
  unfold value_tuple. rewrite !string_app_assoc.
  cbn [append sql_literals_from Ascii.eqb Bool.eqb].
  apply (lex_escaped x EmptyString rest).
Qed.

Lemma lex_tuples batch :
  forall rest,
    sql_literals_from Outside
      (join "," (map value_tuple (map escape_quotes batch)) ++ rest)
    = option_map (app batch) (sql_literals_from Outside rest).
Proof.
  induction batch as [| x batch IH]; intros rest.
  - simpl. now destruct (sql_literals_from Outside rest).
  - destruct batch as [| y batch].
    + cbn [map join String.concat]. rewrite lex_tuple.
      now destruct (sql_literals_from Outside rest).
    + change (join "," (map value_tuple (map escape_quotes (x :: y :: batch))))
        with (value_tuple (escape_quotes x) ++ ","
              ++ join "," (map value_tuple (map escape_quotes (y :: batch))))%string.
      rewrite string_app_assoc, lex_tuple.
      rewrite string_app_assoc.
      change (sql_literals_from Outside
                ("," ++ join "," (map value_tuple (map escape_quotes (y :: batch)))
                     ++ rest))
        with (sql_literals_from Outside
                (join "," (map value_tuple (map escape_quotes (y :: batch)))
                      ++ rest)).
      rewrite IH. now destruct (sql_literals_from Outside rest).
Qed.

Lemma lex_plain pre :
  plain pre = true ->
  forall rest,
    sql_literals_from Outside (pre ++ rest) = sql_literals_from Outside rest.
Proof.
  induction pre as [| c pre IH]; intros Hp rest; [reflexivity |].
  cbn [plain] in Hp. apply andb_true_iff in Hp. destruct Hp as (Hc & Hp).
  apply negb_true_iff in Hc. cbn [append sql_literals_from]. rewrite Hc.
  now apply IH.
Qed.

Lemma insert_literals table batch :
  plain table = true ->
  sql_literals
    (insert_or_ignore table (map value_tuple (map escape_quotes batch)))
  = Some batch.
Proof.
  intros Htable. unfold insert_or_ignore, sql_literals.
  rewrite (lex_plain nl eq_refl).
  rewrite (lex_plain "    INSERT INTO " eq_refl).
  rewrite (lex_plain table Htable).
  rewrite (lex_plain " (name) VALUES" eq_refl).
  rewrite (lex_plain nl eq_refl).
  rewrite (lex_plain "    " eq_refl).
  rewrite lex_tuples.
  replace (sql_literals_from Outside
             (nl ++ "    ON CONFLICT (name) DO NOTHING;" ++ nl ++ "    "))
    with (Some (@nil string)) by reflexivity.
  cbn [option_map]. now rewrite app_nil_r.
Qed.

Lemma brands_sql_shape batch :
  brands_sql batch
  = insert_or_ignore "brands" (map value_tuple (map escape_quotes batch)).
Proof. reflexivity. Qed.

Lemma notes_sql_shape batch :
  notes_sql batch
  = insert_or_ignore "notes" (map value_tuple (map escape_quotes batch)).
Proof. reflexivity. Qed.


(* ================================================================== *)
(** * The executor and the requests of a run                            *)
(* ================================================================== *)

Local Open Scope list_scope.

(** What [execute_sql] returns for the outcome of its request. *)
Lemma execute_sql_run cfg sql w :
  exists o,
    execute_sql cfg sql w
    = (Ret match net w (List.length (sent w)) (sql_request cfg sql) with
           | Responds r =>
               if Z.eqb (status_code r) 200
               then match json_body r with Ret j => j | Raise _ => JNull end
               else JNull
           | PostRaises _ => JNull
           end,
       mkWorld o (sent w ++ [sql_request cfg sql]) (net w)).
Proof.
  unfold execute_sql, try_except, bind, requests_post.
  fold (sql_request cfg sql).
  destruct (net w (List.length (sent w)) (sql_request cfg sql)) as [r | e].
  - destruct (Z.eqb (status_code r) 200).
    + unfold lift. destruct (json_body r) as [j | e]; eexists; reflexivity.
    + eexists. reflexivity.
  - eexists. reflexivity.
Qed.

(** C8.  For every statement and every world, the executor sends one
    request and returns normally: the decoded body when the response has
    status 200, and None when the status is another one, when the request
    raises, or when decoding the body raises. *)
Theorem execute_sql_returns :
  forall cfg sql w,
    let outcome := net w (List.length (sent w)) (sql_request cfg sql) in
    (exists v, fst (execute_sql cfg sql w) = Ret v)
    /\ sent (snd (execute_sql cfg sql w))
       = (sent w ++ [sql_request cfg sql])%list
    /\ (forall r j,
           outcome = Responds r -> status_code r = 200%Z ->
           json_body r = Ret j ->
           fst (execute_sql cfg sql w) = Ret j)
    /\ (forall r,
           outcome = Responds r -> status_code r <> 200%Z ->
           fst (execute_sql cfg sql w) = Ret JNull)
    /\ (forall e,
           outcome = PostRaises e ->
           fst (execute_sql cfg sql w) = Ret JNull)
    /\ (forall r e,
           outcome = Responds r -> json_body r = Raise e ->
           fst (execute_sql cfg sql w) = Ret JNull).
Proof.
  intros cfg sql w outcome.
  destruct (execute_sql_run cfg sql w) as (o & Hrun).
  fold outcome in Hrun. rewrite Hrun. cbn [fst snd sent].
  split; [eexists; reflexivity |]. split; [reflexivity |].
  split; [| split; [| split]].
  - intros r j -> H200 ->. apply Z.eqb_eq in H200. now rewrite H200.
  - intros r -> Hne. apply Z.eqb_neq in Hne. now rewrite Hne.
  - intros e ->. reflexivity.
  - intros r e -> ->. now destruct (Z.eqb (status_code r) 200).
Qed.

Lemma execute_sql_returns_witness :
  fst (execute_sql demo_config "SELECT 1" (mkWorld [] [] remote_ok))
  = Ret (JArray [JNumber "1"])
  /\ fst (execute_sql demo_config "SELECT 1" (mkWorld [] [] remote_error))
     = Ret JNull
  /\ fst (execute_sql demo_config "SELECT 1" (mkWorld [] [] remote_down))
     = Ret JNull.
Proof.
  split; [| split].
  - pose proof (execute_sql_returns demo_config "SELECT 1"
                  (mkWorld [] [] remote_ok)) as H.
    cbv zeta in H. destruct H as (_ & _ & H & _).
    apply (H (mkResponse 200 "[1]" (Ret (JArray [JNumber "1"]))));
      reflexivity.
  - pose proof (execute_sql_returns demo_config "SELECT 1"
                  (mkWorld [] [] remote_error)) as H.
    cbv zeta in H. destruct H as (_ & _ & _ & H & _).
    apply (H (mkResponse 500 "boom"
                (Raise (Exn JSONDecodeError "Expecting value"))));
      [reflexivity | cbn; discriminate].
  - pose proof (execute_sql_returns demo_config "SELECT 1"
                  (mkWorld [] [] remote_down)) as H.
    cbv zeta in H. destruct H as (_ & _ & _ & _ & H & _).
    apply (H (Exn RequestException "connection refused")). reflexivity.
Defined.

Lemma sends_ret {A} (a : A) : sends (ret a) [].
Proof.
  intros w. exists a, (stdout w). unfold ret. rewrite app_nil_r.
  now destruct w.
Qed.

Lemma sends_print line : sends (print line) [].
Proof.
  intros w. exists tt, (stdout w ++ [line]). unfold print, modify.
  now rewrite app_nil_r.
Qed.

Lemma sends_bind {A B} (m : M world A) (k : A -> M world B) rs1 rs2 :
  sends m rs1 -> (forall a, sends (k a) rs2) -> sends (bind m k) (rs1 ++ rs2).
Proof.
  intros Hm Hk w. destruct (Hm w) as (a & o & Hrun).
  destruct (Hk a (mkWorld o (sent w ++ rs1) (net w))) as (b & o' & Hrun').
  exists b, o'. unfold bind. rewrite Hrun, Hrun'. cbn [sent net].
  now rewrite app_assoc.
Qed.

Lemma sends_for_each {A} (xs : list A) (body : A -> M world unit)
      (f : A -> list request) :
  (forall x, In x xs -> sends (body x) (f x)) ->
  sends (for_each xs body) (flat_map f xs).
Proof.
  induction xs as [| x xs IH]; intros Hbody; cbn [for_each flat_map].
  - apply sends_ret.
  - apply sends_bind.
    + apply Hbody. now left.
    + intros _. apply IH. intros y Hy. apply Hbody. now right.
Qed.

Lemma sends_execute_sql cfg sql :
  sends (execute_sql cfg sql) [sql_request cfg sql].
Proof.
  intros w. destruct (execute_sql_run cfg sql w) as (o & Hrun).
  rewrite Hrun. eexists. eexists. reflexivity.
Qed.

Lemma sends_create_brands_batch cfg batch :
  sends (create_brands_batch cfg batch)
        (if is_empty batch then [] else [sql_request cfg (brands_sql batch)]).
Proof.
  unfold create_brands_batch. destruct batch as [| x batch]; cbn [is_empty].
  - apply sends_ret.
  - rewrite <- (app_nil_r [sql_request cfg (brands_sql (x :: batch))]).
    apply sends_bind; [apply sends_execute_sql | intros v; apply sends_ret].
Qed.

Lemma sends_create_notes_batch cfg batch :
  sends (create_notes_batch cfg batch)
        (if is_empty batch then [] else [sql_request cfg (notes_sql batch)]).
Proof.
  unfold create_notes_batch. destruct batch as [| x batch]; cbn [is_empty].
  - apply sends_ret.
  - rewrite <- (app_nil_r [sql_request cfg (notes_sql (x :: batch))]).
    apply sends_bind; [apply sends_execute_sql | intros v; apply sends_ret].
Qed.

(** C5.  For every batch, the statement of either builder is the insert
    statement with one value tuple per string of the batch, in order,
    every quote of a string written twice inside its tuple, and the
    clause ON CONFLICT (name) DO NOTHING after the tuples; read back by a
    SQL lexer the statement holds as many string literals as the batch
    has strings, and they are the strings of the batch.  The string
    L'Eau gives the tuple ('L''Eau').  A builder called on a batch that
    is not empty sends this statement and nothing else; on the empty
    batch it sends nothing. *)
Theorem batch_statement_escapes :
  (forall batch,
      brands_sql batch
      = insert_or_ignore "brands"
          (map (fun x => "('" ++ double_quotes x ++ "')")%string batch)
      /\ notes_sql batch
         = insert_or_ignore "notes"
             (map (fun x => "('" ++ double_quotes x ++ "')")%string batch)
      /\ sql_literals (brands_sql batch) = Some batch
      /\ sql_literals (notes_sql batch) = Some batch)
  /\ value_tuple (escape_quotes "L'Eau") = "('L''Eau')"
  /\ sql_literals (brands_sql ["L'Eau"; "Dior"]) = Some ["L'Eau"; "Dior"]
  /\ (forall cfg batch,
         sends (create_brands_batch cfg batch)
               (if is_empty batch then []
                else [sql_request cfg (brands_sql batch)]))
  /\ (forall cfg batch,
         sends (create_notes_batch cfg batch)
               (if is_empty batch then []
                else [sql_request cfg (notes_sql batch)])).
Proof.
  split; [| split; [reflexivity | split; [reflexivity | split]]];
    [| exact sends_create_brands_batch | exact sends_create_notes_batch].
  intros batch.
  assert (Hmap : map value_tuple (map escape_quotes batch)
                 = map (fun x => "('" ++ double_quotes x ++ "')")%string batch).
  { rewrite map_map. apply map_ext. intros x.
    now rewrite escape_quotes_doubles. }
  rewrite brands_sql_shape, notes_sql_shape, <- Hmap.
  repeat split; now apply insert_literals.
Qed.

(** ** Cutting a list into batches *)

Lemma range_index start stop step i :
  0 < step -> In i (range start stop step) -> start <= i < stop.
Proof.
  intros Hstep Hin. unfold range in Hin. apply in_map_iff in Hin.
  destruct Hin as (k & <- & Hk). apply in_seq in Hk.
  pose proof (Nat.Div0.mul_div_le (stop - start + step - 1) step) as Hdiv.
  nia.
Qed.

Lemma firstn_add {A} (a b : nat) (l : list A) :
  firstn (a + b) l = firstn a l ++ firstn b (skipn a l).
Proof.
  revert l. induction a as [| a IH]; intros l; [reflexivity |].
  destruct l as [| x l]; cbn [Nat.add firstn skipn].
  - now rewrite firstn_nil.
  - now rewrite IH.
Qed.

Lemma concat_slices {A} (l : list A) step m :
  concat (map (fun k => slice l (0 + k * step) (0 + k * step + step)) (seq 0 m))
  = firstn (m * step) l.
Proof.
  induction m as [| m IH]; [reflexivity |].
  rewrite seq_S, map_app, concat_app, IH. cbn [map concat Nat.add].
  rewrite app_nil_r. unfold slice.
  replace (m * step + step - m * step) with step by lia.
  replace (S m * step) with (m * step + step) by lia.
  now rewrite firstn_add.
Qed.

Lemma batches_concat {A} (l : list A) : concat (batches l) = l.
Proof.
  unfold batches, range. rewrite map_map.
  rewrite (concat_slices l batch_size).
  apply firstn_all2.
  pose proof (Nat.div_mod_eq (List.length l - 0 + batch_size - 1) batch_size).
  pose proof (Nat.mod_upper_bound (List.length l - 0 + batch_size - 1) batch_size).
  unfold batch_size in *. lia.
Qed.

Lemma batches_sizes {A} (l : list A) :
  Forall (fun b => 1 <= List.length b <= batch_size) (batches l).
Proof.
  apply Forall_forall. intros b Hb. unfold batches in Hb.
  apply in_map_iff in Hb. destruct Hb as (i & <- & Hi).
  apply range_index in Hi; [| unfold batch_size; lia].
  unfold slice, batch_size. rewrite length_firstn, length_skipn. lia.
Qed.

Lemma batches_count {A} (l : list A) :
  List.length (batches l) = (List.length l + 49) / 50.
Proof.
  unfold batches, range. rewrite !length_map, length_seq.
  unfold batch_size. f_equal. lia.
Qed.

Lemma sends_eq {A} (m : M world A) rs rs' :
  sends m rs -> rs = rs' -> sends m rs'.
Proof. now intros H <-. Qed.

Lemma flat_map_singleton {A B} (g : A -> B) xs :
  flat_map (fun x => [g x]) xs = map g xs.
Proof. induction xs as [| x xs IH]; cbn; [reflexivity | now rewrite IH]. Qed.

Lemma flat_map_nil {A B} (xs : list A) :
  flat_map (fun _ => @nil B) xs = [].
Proof. induction xs as [| x xs IH]; cbn; [reflexivity | exact IH]. Qed.

Lemma slice_not_empty {A} (l : list A) i :
  i < List.length l -> is_empty (slice l i (i + batch_size)) = false.
Proof.
  intros Hi. unfold slice, batch_size.
  replace (i + 50 - i) with 50 by lia.
  destruct (skipn i l) as [| x rest] eqn:E; [| reflexivity].
  apply (f_equal (@List.length A)) in E. rewrite length_skipn in E.
  cbn in E. lia.
Qed.

Lemma sends_create_brands cfg l :
  sends (create_brands cfg l)
        (map (fun batch => sql_request cfg (brands_sql batch)) (batches l)).
Proof.
  unfold create_brands, batches. rewrite map_map.
  rewrite <- flat_map_singleton. apply sends_for_each. intros i Hi.
  apply range_index in Hi; [| unfold batch_size; lia].
  apply (sends_bind _ _ [] _ (sends_print _)). intros _.
  rewrite <- (app_nil_r [_]). apply sends_bind.
  - pose proof (sends_create_brands_batch cfg (slice l i (i + batch_size))) as H.
    rewrite slice_not_empty in H by lia. exact H.
  - intros ok. destruct (negb ok); [apply sends_print | apply sends_ret].
Qed.

Lemma sends_create_notes cfg l :
  sends (create_notes cfg l)
        (map (fun batch => sql_request cfg (notes_sql batch)) (batches l)).
Proof.
  unfold create_notes, batches. rewrite map_map.
  rewrite <- flat_map_singleton. apply sends_for_each. intros i Hi.
  apply range_index in Hi; [| unfold batch_size; lia].
  apply (sends_bind _ _ [] _ (sends_print _)). intros _.
  rewrite <- (app_nil_r [_]). apply sends_bind.
  - pose proof (sends_create_notes_batch cfg (slice l i (i + batch_size))) as H.
    rewrite slice_not_empty in H by lia. exact H.
  - intros ok. destruct (negb ok); [apply sends_print | apply sends_ret].
Qed.

Lemma sends_import cfg b n f :
  sends (import cfg (b, n, f))
        (map (fun batch => sql_request cfg (brands_sql batch)) (batches b)
         ++ map (fun batch => sql_request cfg (notes_sql batch)) (batches n)).
Proof.
  unfold import.
  set (B := map (fun batch => sql_request cfg (brands_sql batch)) (batches b)).
  set (N := map (fun batch => sql_request cfg (notes_sql batch)) (batches n)).
  apply sends_eq with ([] ++ [] ++ B ++ [] ++ [] ++ N ++ [] ++ []).
  - repeat (apply sends_bind; [| intros _]);
      try apply sends_print.
    + apply sends_create_brands.
    + apply sends_create_notes.
  - cbn [app]. now rewrite app_nil_r.
Qed.

Lemma sends_main cfg fs :
  sends (main cfg fs) (expected_requests cfg (fst (load_csv_data fs))).
Proof.
  unfold main. destruct (load_csv_data fs) as [r printed]. cbn [fst].
  apply sends_eq
    with ([] ++ [] ++ flat_map (fun _ => []) printed
             ++ expected_requests cfg r).
  - repeat (apply sends_bind; [| intros _]); try apply sends_print.
    + apply sends_for_each. intros line _. apply sends_print.
    + destruct r as [[[b n] f] |]; cbn [no_brands expected_requests].
      * destruct (is_empty b); [apply sends_print | apply sends_import].
      * apply sends_print.
  - now rewrite flat_map_nil.
Qed.

(** C6.  For every list, the batches of the loops of [main], put end to
    end, are the list itself - consecutive, in order, nothing left out
    and nothing twice; each batch has at least one and at most 50
    strings and there are as many batches as 50 goes into the length,
    rounded up; and each loop sends one statement per batch, that of the
    batch, in order. *)
Theorem batches_partition :
  (forall l : list string,
      concat (batches l) = l
      /\ Forall (fun b => 1 <= List.length b <= 50) (batches l)
      /\ List.length (batches l) = (List.length l + 49) / 50)
  /\ (forall cfg l,
         sends (create_brands cfg l)
               (map (fun batch => sql_request cfg (brands_sql batch))
                    (batches l)))
  /\ (forall cfg l,
         sends (create_notes cfg l)
               (map (fun batch => sql_request cfg (notes_sql batch))
                    (batches l))).
Proof.
  split; [| split].
  - intros l. split; [apply batches_concat |].
    split; [apply batches_sizes | apply batches_count].
  - exact sends_create_brands.
  - exact sends_create_notes.
Qed.


(* ================================================================== *)
(** * Further properties of the loader                                  *)
(* ================================================================== *)

Lemma record_of_long r :
  (is_long r = true /\ exists f, record_of r = Some f
                                 /\ url f = column r 0
                                 /\ name f = column r 1
                                 /\ country f = column r 3)
  \/ (is_long r = false /\ record_of r = None).
Proof.
  unfold is_long, record_of. destruct (Nat.ltb (List.length r) 11).
  - right. split; reflexivity.
  - left. split; [reflexivity |]. eexists. repeat split.
Qed.

Lemma records_count rows :
  List.length (records rows) = List.length (filter is_long rows).
Proof.
  induction rows as [| r rows IH]; [reflexivity |].
  cbn [records filter].
  destruct (record_of_long r) as [(-> & f & -> & _) | (-> & ->)];
    cbn [List.length]; now rewrite IH.
Qed.

Lemma records_columns rows :
  map url (records rows) = map (fun r => column r 0) (filter is_long rows)
  /\ map name (records rows) = map (fun r => column r 1) (filter is_long rows)
  /\ map country (records rows)
     = map (fun r => column r 3) (filter is_long rows).
Proof.
  induction rows as [| r rows (IH1 & IH2 & IH3)]; [repeat split |].
  cbn [records filter].
  destruct (record_of_long r) as [(-> & f & -> & Hu & Hn & Hc) | (-> & ->)];
    cbn [map]; rewrite ?IH1, ?IH2, ?IH3, ?Hu, ?Hn, ?Hc; repeat split; assumption.
Qed.

(** X1.  When the file read as UTF-8 is delivered whole, the loader
    returns the records of its data rows: the header is left out, one
    record per row of eleven columns or more, in the order of the rows,
    whatever the rating and year columns hold, with url, name and
    country copied unchanged; and the views of the file under the other
    encodings play no part. *)
Theorem clean_pass_loads_rows :
  forall fs ls fin h rows,
    fs utf_8 = Lines ls fin ->
    csv_reader ls fin = (h :: rows, EOF) ->
    (exists b n o, load_csv_data fs = (Some (b, n, records rows), o))
    /\ List.length (records rows) = List.length (filter is_long rows)
    /\ map url (records rows) = map (fun r => column r 0) (filter is_long rows)
    /\ map name (records rows) = map (fun r => column r 1) (filter is_long rows)
    /\ map country (records rows)
       = map (fun r => column r 3) (filter is_long rows)
    /\ (forall fs', fs' utf_8 = fs utf_8 ->
                    load_csv_data fs' = load_csv_data fs).
Proof.
  intros fs ls fin h rows Hfs Hcsv.
  split; [| split; [apply records_count |]].
  - rewrite load_csv_data_spec,
      (try_encodings_first fs _ _ _ _ acc_init Hfs Hcsv).
    do 3 eexists. now rewrite rows_effect_fragrances.
  - destruct (records_columns rows) as (H1 & H2 & H3).
    repeat split; auto.
    intros fs' Hfs'. rewrite Hfs in Hfs'. rewrite !load_csv_data_spec.
    rewrite (try_encodings_first fs _ _ _ _ acc_init Hfs Hcsv).
    now rewrite (try_encodings_first fs' _ _ _ _ acc_init Hfs' Hcsv).
Qed.

Lemma clean_pass_loads_rows_witness :
  exists b n o,
    load_csv_data short_row_file = (Some (b, n, [eau_sauvage]), o).
Proof.
  destruct (clean_pass_loads_rows short_row_file
              [header_line; ("http://w;Torn" ++ nl)%string;
               (eau_sauvage_text ++ nl)%string]
              EOF
              (hd [] (fst (csv_reader [header_line] EOF)))
              [["http://w"; "Torn"]; eau_sauvage_row])
    as (H & _); [reflexivity | vm_compute; reflexivity |].
  exact H.
Defined.

Lemma set_add_NoDup x s : NoDup s -> NoDup (set_add x s).
Proof.
  induction s as [| y s IH]; intros Hs; cbn [set_add].
  - constructor; [intros [] | constructor].
  - destruct (String.eqb x y) eqn:E; [exact Hs |].
    inversion Hs as [| ? ? Hy Hs']; subst. constructor; [| now apply IH].
    intros Hin. apply in_set_add in Hin. destruct Hin as [-> | Hin]; [| tauto].
    now rewrite String.eqb_refl in E.
Qed.

Lemma set_update_NoDup xs : forall s, NoDup s -> NoDup (set_update xs s).
Proof.
  induction xs as [| x xs IH]; intros s Hs; [exact Hs |].
  change (set_update (x :: xs) s) with (set_update xs (set_add x s)).
  apply IH. now apply set_add_NoDup.
Qed.

(** X2.  Whatever the file, when the loader returns data the brand list
    and the note list have no duplicates, the brand list holds exactly
    the brands of the returned records and the note list exactly the
    notes occurring in them. *)
Theorem loaded_sets_match_records :
  forall fs b n f o,
    load_csv_data fs = (Some (b, n, f), o) ->
    NoDup b /\ NoDup n
    /\ (forall x, In x b <-> In x (map brand f))
    /\ (forall x, In x n <-> In x (flat_map all_notes f)).
Proof.
  intros fs b n f o H.
  destruct (load_csv_data_keeps
              (fun a => NoDup (brands a) /\ NoDup (notes a)
                        /\ (forall x, In x (brands a)
                                      <-> In x (map brand (fragrances a)))
                        /\ (forall x, In x (notes a)
                                      <-> In x (flat_map all_notes (fragrances a)))))
    with (fs := fs) (b := b) (n := n) (f := f) (o := o)
    as (a & Ha & <- & <- & <-); [| | exact H | exact Ha].
  - intros i row a (Hb & Hn & Hbs & Hns). unfold row_effect.
    destruct (record_of row) as [r |]; [| auto].
    cbn [brands notes fragrances].
    split; [now apply set_add_NoDup |]. split; [now apply set_update_NoDup |].
    split; intros x.
    + rewrite in_set_add, map_app, in_app_iff, Hbs. cbn.
      intuition (subst; auto).
    + rewrite in_set_update, flat_map_app, in_app_iff, Hns. cbn.
      rewrite app_nil_r. tauto.
  - cbn. repeat split; try constructor; tauto.
Qed.

Lemma loaded_sets_match_records_witness :
  exists b n f o,
    load_csv_data mixed_file = (Some (b, n, f), o)
    /\ NoDup b /\ (forall x, In x b <-> In x (map brand f)).
Proof.
  destruct (load_csv_data mixed_file) as [[[[b n] f] |] o] eqn:E;
    [| vm_compute in E; discriminate E].
  exists b, n, f, o. split; [reflexivity |].
  destruct (loaded_sets_match_records mixed_file b n f o E) as (Hb & _ & Hbs & _).
  split; [exact Hb | exact Hbs].
Defined.

Lemma loaded_records_are_built fs b n f o :
  load_csv_data fs = (Some (b, n, f), o) ->
  Forall (fun r => exists row, record_of row = Some r) f.
Proof.
  intros H.
  destruct (load_csv_data_keeps
              (fun a => Forall (fun r => exists row, record_of row = Some r)
                               (fragrances a)))
    with (fs := fs) (b := b) (n := n) (f := f) (o := o)
    as (a & Ha & _ & _ & <-); [| constructor | exact H | exact Ha].
  intros i row a Ha. unfold row_effect.
  destruct (record_of row) as [r |] eqn:E; [| exact Ha].
  cbn [fragrances]. apply Forall_app. split; [exact Ha |].
  constructor; [now exists row | constructor].
Qed.

Lemma record_of_fields row r :
  record_of row = Some r ->
  brand r = normalize_brand (column row 2)
  /\ gender r = normalize_gender (column row 4)
  /\ top_notes r = parse_notes (column row 8)
  /\ middle_notes r = parse_notes (column row 9)
  /\ base_notes r = parse_notes (column row 10).
Proof.
  unfold record_of. destruct (Nat.ltb (List.length row) 11); [discriminate |].
  intros H. injection H as <-. repeat split.
Qed.

Lemma replace_leaves_no_space s : no_space (replace " " "-" s) = true.
Proof.
  induction s as [| c s IH]; [reflexivity |]. cbn [replace].
  destruct (Ascii.eqb c " ") eqn:E; cbn [append no_space];
    rewrite ?E, IH; reflexivity.
Qed.

(** X3.  A normalised brand never holds a space: every space of the
    title-cased text has become a hyphen.  So no brand of the list the
    loader returns, and no brand of a returned record, holds a space. *)
Theorem brands_hold_no_space :
  (forall b, no_space (normalize_brand b) = true)
  /\ (forall fs b n f o,
         load_csv_data fs = (Some (b, n, f), o) ->
         Forall (fun x => no_space x = true) b
         /\ Forall (fun r => no_space (brand r) = true) f).
Proof.
  assert (Hnorm : forall b, no_space (normalize_brand b) = true).
  { intros b. apply replace_leaves_no_space. }
  split; [exact Hnorm |].
  intros fs b n f o H.
  assert (Hf : Forall (fun r => no_space (brand r) = true) f).
  { eapply Forall_impl; [| exact (loaded_records_are_built fs b n f o H)].
    intros r (row & Hrow).
    destruct (record_of_fields row r Hrow) as (-> & _). apply Hnorm. }
  split; [| exact Hf].
  destruct (loaded_sets_match_records fs b n f o H) as (_ & _ & Hb & _).
  apply Forall_forall. intros x Hx. apply Hb in Hx.
  apply in_map_iff in Hx. destruct Hx as (r & <- & Hr).
  rewrite Forall_forall in Hf. now apply Hf.
Qed.

Lemma brands_hold_no_space_witness :
  Forall (fun x => no_space x = true) ["Christian-Dior"].
Proof.
  apply (proj2 brands_hold_no_space one_row_file
               ["Christian-Dior"] ["Bergamot"; "Lemon"; "Amber"] [eau_sauvage]
               ["Processed 0 rows..."]).
  vm_compute. reflexivity.
Defined.












(* ================================================================== *)
(** * Further properties of the run                                     *)
(* ================================================================== *)

Lemma for_each_print ls :
  forall w, for_each ls print w
            = (Ret tt, mkWorld (stdout w ++ ls) (sent w) (net w)).
Proof.
  induction ls as [| l ls IH]; intros w.
  - cbn. rewrite app_nil_r. now destruct w.
  - cbn [for_each]. unfold bind. cbn [print modify]. rewrite IH.
    cbn [stdout sent net]. now rewrite <- app_assoc.
Qed.

Lemma main_without_brands cfg fs w :
  no_brands (fst (load_csv_data fs)) = true ->
  main cfg fs w
  = (Ret tt,
     mkWorld (stdout w
              ++ ["🚀 Starting MCP-based CSV import..."; "📄 Loading CSV data..."]
              ++ snd (load_csv_data fs) ++ ["❌ Failed to load data"])
             (sent w) (net w)).
Proof.
  unfold main. destruct (load_csv_data fs) as [r printed]. cbn [fst snd].
  intros Hr. unfold bind. cbn [print modify]. rewrite for_each_print.
  cbn [stdout sent net].
  replace (match r with
           | Some data =>
               if no_brands r then print "❌ Failed to load data"
               else import cfg data
           | None => print "❌ Failed to load data"
           end) with (print "❌ Failed to load data")
    by (destruct r; [now rewrite Hr | reflexivity]).
  unfold print, modify. cbn [stdout sent net].
  rewrite <- !app_assoc. reflexivity.
Qed.

Lemma script_sent env fs remote :
  sent (snd (script env fs remote)) = []
  \/ exists cfg,
       sent (snd (script env fs remote))
       = expected_requests cfg (fst (load_csv_data fs)).
Proof.
  unfold script.
  destruct (getenv_or env "SUPABASE_URL" "EXPO_PUBLIC_SUPABASE_URL")
    as [u |]; [| now left].
  destruct (getenv_or env "SUPABASE_ANON_KEY" "EXPO_PUBLIC_SUPABASE_ANON_KEY")
    as [k |]; [| now left].
  destruct (truthy u && truthy k); [| now left].
  right. exists (mkConfig u k).
  destruct (sends_main (mkConfig u k) fs (mkWorld [] [] remote))
    as (v & o & ->).
  reflexivity.
Qed.

Lemma nothing_loaded_nothing_sent env fs remote :
  no_brands (fst (load_csv_data fs)) = true ->
  sent (snd (script env fs remote)) = [].
Proof.
  intros Hr. destruct (script_sent env fs remote) as [H | (cfg & H)];
    [exact H |].
  rewrite H. destruct (fst (load_csv_data fs)) as [[[b n] f] |];
    [| reflexivity].
  cbn in Hr |- *. now rewrite Hr.
Qed.

(** X6.  When the first pass over the file raises anything but a decode
    error - the file cannot be opened, it is empty, or the reader rejects
    it - the loader gives up at once: it prints the error and returns no
    data, whatever the other encodings would deliver.  [main] then
    prints that the load failed, sends no request and returns normally. *)
Theorem load_error_ends_the_run :
  forall fs e a,
    attempt fs utf_8 acc_init = (Raise e, a) ->
    is_UnicodeDecodeError e = false ->
    load_csv_data fs
    = (None, out a ++ [("Error loading CSV: " ++ exn_str e)%string])
    /\ (forall cfg w,
           main cfg fs w
           = (Ret tt,
              mkWorld (stdout w
                       ++ ["🚀 Starting MCP-based CSV import...";
                           "📄 Loading CSV data..."]
                       ++ (out a ++ [("Error loading CSV: " ++ exn_str e)%string])
                       ++ ["❌ Failed to load data"])
                      (sent w) (net w)))
    /\ (forall env remote, sent (snd (script env fs remote)) = []).
Proof.
  intros fs e a Hrun He.
  assert (Hload : load_csv_data fs
                  = (None, out a ++ [("Error loading CSV: " ++ exn_str e)%string])).
  { rewrite load_csv_data_spec. unfold encodings.
    rewrite try_encodings_cons, Hrun, He. reflexivity. }
  split; [exact Hload |]. split.
  - intros cfg w. rewrite main_without_brands; rewrite Hload; reflexivity.
  - intros env remote. apply nothing_loaded_nothing_sent.
    now rewrite Hload.
Qed.

Lemma load_error_ends_the_run_witness :
  load_csv_data missing_file
  = (None, ["Error loading CSV: No such file or directory: 'fra_cleaned.csv'"])
  /\ sent (snd (script env_fallback missing_file remote_ok)) = [].
Proof.
  destruct (load_error_ends_the_run missing_file
              (Exn OSError "No such file or directory: 'fra_cleaned.csv'")
              acc_init eq_refl eq_refl) as (Hload & _ & Hsent).
  split; [exact Hload | apply Hsent].
Defined.

Lemma records_all_short rows :
  Forall (fun r => List.length r < 11) rows -> records rows = [].
Proof.
  induction 1 as [| r rows Hr _ IH]; [reflexivity |].
  cbn [records]. now rewrite (record_of_short r Hr).
Qed.

(** X7.  A readable file whose data rows all have fewer than eleven
    columns - a file with nothing but its header among them - loads as
    three empty lists, and the run is treated like a failed load: [main]
    prints that the load failed and sends no request. *)
Theorem no_usable_row_is_a_failed_load :
  forall fs ls fin h rows,
    fs utf_8 = Lines ls fin ->
    csv_reader ls fin = (h :: rows, EOF) ->
    Forall (fun r => List.length r < 11) rows ->
    load_csv_data fs = (Some ([], [], []), [])
    /\ (forall cfg w,
           main cfg fs w
           = (Ret tt,
              mkWorld (stdout w
                       ++ ["🚀 Starting MCP-based CSV import...";
                           "📄 Loading CSV data..."; "❌ Failed to load data"])
                      (sent w) (net w)))
    /\ (forall env remote, sent (snd (script env fs remote)) = []).
Proof.
  intros fs ls fin h rows Hfs Hcsv Hshort.
  assert (Hload : load_csv_data fs = (Some ([], [], []), [])).
  { rewrite load_csv_data_spec,
      (try_encodings_first fs _ _ _ _ acc_init Hfs Hcsv).
    assert (Hsame : rows_effect 0 rows acc_init = acc_init).
    { clear Hcsv. generalize 0. induction Hshort as [| r rows Hr _ IH];
        intros i; [reflexivity |].
      cbn [rows_effect]. unfold row_effect.
      rewrite (record_of_short r Hr). apply IH. }
    now rewrite Hsame. }
  split; [exact Hload |]. split.
  - intros cfg w. rewrite main_without_brands; rewrite Hload; reflexivity.
  - intros env remote. apply nothing_loaded_nothing_sent. now rewrite Hload.
Qed.

Lemma no_usable_row_is_a_failed_load_witness :
  load_csv_data header_only_file = (Some ([], [], []), [])
  /\ sent (snd (script env_fallback header_only_file remote_ok)) = [].
Proof.
  destruct (no_usable_row_is_a_failed_load header_only_file
              [header_line; ("http://w;Torn" ++ nl)%string] EOF
              (hd [] (fst (csv_reader [header_line] EOF)))
              [["http://w"; "Torn"]])
    as (Hload & _ & Hsent);
    [reflexivity | vm_compute; reflexivity
     | constructor; [cbn; lia | constructor] |].
  split; [exact Hload | apply Hsent].
Defined.

(** X8.  The script leaves with status 1 exactly when the address or the
    key is missing or empty under both of its names, and with status 0
    otherwise - also when the load fails or batches fail.  In the first
    case it prints the error about the credentials and does nothing
    else: no file is read and no request is sent. *)
Theorem missing_credentials_stop_the_script :
  forall env fs remote,
    let ready :=
      configured (getenv_or env "SUPABASE_URL" "EXPO_PUBLIC_SUPABASE_URL")
      && configured (getenv_or env "SUPABASE_ANON_KEY"
                               "EXPO_PUBLIC_SUPABASE_ANON_KEY") in
    fst (script env fs remote) = (if ready then 0 else 1)%Z
    /\ (ready = false ->
        snd (script env fs remote) = mkWorld [credentials_error] [] remote).
Proof.
  intros env fs remote. unfold script, configured.
  destruct (getenv_or env "SUPABASE_URL" "EXPO_PUBLIC_SUPABASE_URL")
    as [u |]; cbn [andb].
  - destruct (getenv_or env "SUPABASE_ANON_KEY" "EXPO_PUBLIC_SUPABASE_ANON_KEY")
      as [k |].
    + destruct (truthy u && truthy k) eqn:E.
      * destruct (sends_main (mkConfig u k) fs (mkWorld [] [] remote))
          as (v & o & ->).
        split; [reflexivity | discriminate].
      * split; [reflexivity | reflexivity].
    + rewrite andb_false_r. split; reflexivity.
  - split; reflexivity.
Qed.

Lemma missing_credentials_stop_the_script_witness :
  script env_empty one_row_file remote_ok
  = (1%Z, mkWorld [credentials_error] [] remote_ok).
Proof.
  destruct (missing_credentials_stop_the_script env_empty one_row_file remote_ok)
    as (Hstatus & Hworld).
  cbv zeta in Hworld. specialize (Hworld eq_refl).
  rewrite (surjective_pairing (script env_empty one_row_file remote_ok)).
  now rewrite Hstatus, Hworld.
Defined.

Lemma expected_requests_shape cfg r :
  Forall (fun rq => exists sql, rq = sql_request cfg sql)
         (expected_requests cfg r).
Proof.
  destruct r as [[[b n] f] |]; cbn [expected_requests]; [| constructor].
  destruct (is_empty b); [constructor |].
  apply Forall_app. split; apply Forall_forall; intros rq Hrq;
    apply in_map_iff in Hrq; destruct Hrq as (batch & <- & _); eexists;
    reflexivity.
Qed.

(** X9.  The address and the key are taken from the first name that is
    set and not empty, else from the second.  Every request of the run
    goes to that address followed by /rest/v1/rpc/sql - never to the path
    exec_sql that the executor first builds - carries the key as apikey
    and as bearer token, and has the statement as its only field. *)
Theorem requests_go_to_the_configured_endpoint :
  (forall env a b v,
      env a = Some v -> truthy v = true -> getenv_or env a b = Some v)
  /\ (forall env a b,
         env a = None \/ env a = Some EmptyString ->
         getenv_or env a b = env b)
  /\ (forall env fs remote u k,
         getenv_or env "SUPABASE_URL" "EXPO_PUBLIC_SUPABASE_URL" = Some u ->
         getenv_or env "SUPABASE_ANON_KEY" "EXPO_PUBLIC_SUPABASE_ANON_KEY"
         = Some k ->
         Forall (fun rq =>
                   req_url rq = (u ++ "/rest/v1/rpc/sql")%string
                   /\ req_headers rq
                      = [("apikey", k);
                         ("Authorization", ("Bearer " ++ k)%string);
                         ("Content-Type", "application/json")]
                   /\ exists sql, req_json rq = [("query", sql)])
                (sent (snd (script env fs remote)))).
Proof.
  split; [| split].
  - intros env a b v Ha Hv. unfold getenv_or. now rewrite Ha, Hv.
  - intros env a b [Ha | Ha]; unfold getenv_or; now rewrite Ha.
  - intros env fs remote u k Hu Hk. unfold script. rewrite Hu, Hk.
    destruct (truthy u && truthy k); [| constructor].
    destruct (sends_main (mkConfig u k) fs (mkWorld [] [] remote))
      as (v & o & ->).
    cbn [snd sent app].
    eapply Forall_impl; [| apply expected_requests_shape].
    intros rq (sql & ->). cbn. repeat split. now exists sql.
Qed.

Lemma requests_go_to_the_configured_endpoint_witness :
  getenv_or env_fallback "SUPABASE_URL" "EXPO_PUBLIC_SUPABASE_URL"
  = Some "https://db.example"
  /\ Forall (fun rq => req_url rq = "https://db.example/rest/v1/rpc/sql")
            (sent (snd (script env_fallback one_row_file remote_ok)))
  /\ List.length (sent (snd (script env_fallback one_row_file remote_ok))) = 2.
Proof.
  destruct requests_go_to_the_configured_endpoint as (_ & Hsecond & Hall).
  split; [| split].
  - rewrite (Hsecond env_fallback "SUPABASE_URL" "EXPO_PUBLIC_SUPABASE_URL");
      [reflexivity | now right].
  - eapply Forall_impl;
      [| apply (Hall env_fallback one_row_file remote_ok
                     "https://db.example" "anon-key"); reflexivity].
    intros rq (Hurl & _). exact Hurl.
  - vm_compute. reflexivity.
Defined.

(** X10.  A builder called on a batch that is not empty reports success
    exactly when the response has status 200 and a body that decodes to
    something other than null: any other status, an exception of the
    request, a body that is not JSON and the body null all count as
    failure. *)
Theorem batch_success_flag :
  forall cfg batch w,
    batch <> [] ->
    fst (create_brands_batch cfg batch w)
    = Ret (accepted (net w (List.length (sent w))
                         (sql_request cfg (brands_sql batch))))
    /\ fst (create_notes_batch cfg batch w)
       = Ret (accepted (net w (List.length (sent w))
                            (sql_request cfg (notes_sql batch)))).
Proof.
  intros cfg [| x batch] w Hne; [congruence |].
  unfold create_brands_batch, create_notes_batch, bind. cbn [is_empty].
  destruct (execute_sql_run cfg (brands_sql (x :: batch)) w) as (o1 & ->).
  destruct (execute_sql_run cfg (notes_sql (x :: batch)) w) as (o2 & ->).
  cbn [ret fst]. unfold accepted.
  split.
  - destruct (net w (List.length (sent w))
                  (sql_request cfg (brands_sql (x :: batch)))) as [r | e];
      [| reflexivity].
    destruct (Z.eqb (status_code r) 200); [| reflexivity].
    destruct (json_body r); reflexivity.
  - destruct (net w (List.length (sent w))
                  (sql_request cfg (notes_sql (x :: batch)))) as [r | e];
      [| reflexivity].
    destruct (Z.eqb (status_code r) 200); [| reflexivity].
    destruct (json_body r); reflexivity.
Qed.

Lemma batch_success_flag_witness :
  fst (create_brands_batch demo_config ["Dior"] (mkWorld [] [] remote_ok))
  = Ret true
  /\ fst (create_brands_batch demo_config ["Dior"] (mkWorld [] [] remote_null))
     = Ret false
  /\ fst (create_notes_batch demo_config ["Rose"] (mkWorld [] [] remote_down))
     = Ret false.
Proof.
  split; [| split].
  - apply (proj1 (batch_success_flag demo_config ["Dior"]
                    (mkWorld [] [] remote_ok) ltac:(discriminate))).
  - apply (proj1 (batch_success_flag demo_config ["Dior"]
                    (mkWorld [] [] remote_null) ltac:(discriminate))).
  - apply (proj2 (batch_success_flag demo_config ["Rose"]
                    (mkWorld [] [] remote_down) ltac:(discriminate))).
Defined.




Lemma ends_with_print line : ends_with (print line) [] line.
Proof.
  intros w. exists tt, (stdout w). unfold print, modify.
  now rewrite app_nil_r.
Qed.

Lemma ends_with_bind {A B} (m : M world A) (k : A -> M world B) rs1 rs2 line :
  sends m rs1 -> (forall a, ends_with (k a) rs2 line) ->
  ends_with (bind m k) (rs1 ++ rs2) line.
Proof.
  intros Hm Hk w. destruct (Hm w) as (a & o & Hrun).
  destruct (Hk a (mkWorld o (sent w ++ rs1) (net w))) as (b & o' & Hrun').
  exists b, o'. unfold bind. rewrite Hrun, Hrun'. cbn [sent net].
  now rewrite app_assoc.
Qed.

(** X12.  Once data with a brand is loaded, [main] always runs to its
    last line: whatever the remote side answers - every batch may have
    failed - it returns normally and the last thing it prints is that the
    import completed. *)
Theorem completion_is_always_announced :
  forall cfg fs w,
    no_brands (fst (load_csv_data fs)) = false ->
    exists o,
      main cfg fs w
      = (Ret tt,
         mkWorld (o ++ ["🎉 Import completed! Check Supabase to verify the data."])
                 (sent w ++ expected_requests cfg (fst (load_csv_data fs)))
                 (net w)).
Proof.
  intros cfg fs w Hr.
  assert (H : ends_with (main cfg fs)
                        (expected_requests cfg (fst (load_csv_data fs)))
                        "🎉 Import completed! Check Supabase to verify the data.").
  { unfold main. destruct (load_csv_data fs) as [r printed].
    cbn [fst] in Hr |- *.
    destruct r as [[[b n] f] |]; [| discriminate Hr].
    cbn [no_brands] in Hr. cbn [no_brands expected_requests]. rewrite Hr.
    set (B := map (fun batch => sql_request cfg (brands_sql batch)) (batches b)).
    set (N := map (fun batch => sql_request cfg (notes_sql batch)) (batches n)).
    intros w0.
    assert (Hgoal : ends_with
              (print "🚀 Starting MCP-based CSV import..." ;;
               print "📄 Loading CSV data..." ;;
               for_each printed print ;;
               import cfg (b, n, f))%py
              ([] ++ [] ++ flat_map (fun _ => []) printed
                  ++ [] ++ [] ++ B ++ [] ++ [] ++ N ++ [] ++ [])
              "🎉 Import completed! Check Supabase to verify the data.").
    { unfold import.
      apply ends_with_bind; [apply sends_print | intros _].
      apply ends_with_bind; [apply sends_print | intros _].
      apply ends_with_bind;
        [apply sends_for_each; intros line _; apply sends_print | intros _].
      apply ends_with_bind; [apply sends_print | intros _].
      apply ends_with_bind; [apply sends_print | intros _].
      apply ends_with_bind; [apply sends_create_brands | intros _].
      apply ends_with_bind; [apply sends_print | intros _].
      apply ends_with_bind; [apply sends_print | intros _].
      apply ends_with_bind; [apply sends_create_notes | intros _].
      apply ends_with_bind; [apply sends_print | intros _].
      apply ends_with_print. }
    destruct (Hgoal w0) as (v & o & Hrun). exists v, o. rewrite Hrun.
    rewrite flat_map_nil. cbn [app]. now rewrite !app_nil_r. }
  destruct (H w) as ([] & o & Hrun). exists o. exact Hrun.
Qed.

Lemma completion_is_always_announced_witness :
  exists o,
    main demo_config one_row_file (mkWorld [] [] remote_down)
    = (Ret tt,
       mkWorld (o ++ ["🎉 Import completed! Check Supabase to verify the data."])
               ([] ++ expected_requests demo_config
                        (fst (load_csv_data one_row_file)))
               remote_down).
Proof.
  apply (completion_is_always_announced demo_config one_row_file
           (mkWorld [] [] remote_down)).
  vm_compute. reflexivity.
Defined.



